(** * checker.py: page-update checker, change log and RSS feed

    A shallow embedding of [checker.py] and the properties of its
    change-detection loop, its change log and its feed generator.

    Python values are modelled as follows.
    - [str] is a sequence of Unicode code points: [list N].
    - A float timestamp (finite, as [time.time()] and JSON produce them)
      is a rational number [Q]; [int(ts)] truncates toward zero.
    - A [dict] read with [.get] is a record of optional fields when its
      keys are fixed ([state[uid]], a change record), and a [gmap] when it
      is keyed by data (the state file, the snapshot directory).
    - The network and the clock are oracles of the run ([Env]); the
      third-party and standard-library routines the script calls without
      defining (BeautifulSoup, hashlib, difflib, email.utils) are the
      members of the interface [External]. *)

From Stdlib Require Import ZArith QArith Qround String Ascii List.
From Stdlib Require Import Permutation Sorted DecimalString Lia.
From stdpp Require Import gmap list sorting.

Close Scope Q_scope.

(** ** Python strings *)

Abbreviation pystr := (list N).

(** An ASCII literal as a Python string. *)
Definition lit (s : string) : pystr :=
  map N_of_ascii (list_ascii_of_string s).

Definition TAB : N := 9%N.
Definition LF : N := 10%N.
Definition CR : N := 13%N.
Definition SPACE : N := 32%N.
Definition QUOT : N := 34%N.
Definition AMP : N := 38%N.
Definition LT : N := 60%N.
Definition GT : N := 62%N.

(** Truthiness of a [str] and of an optional [str] ([None] is falsy, and
    so is the empty string). *)
Definition truthy (s : pystr) : bool :=
  match s with [] => false | _ :: _ => true end.

Definition truthy_opt (o : option pystr) : bool :=
  match o with Some s => truthy s | None => false end.

(** [a or b] on values that are [None] or a [str]. *)
Definition py_or (a b : option pystr) : option pystr :=
  if truthy_opt a then a else b.

(** [a or b] on two strings. *)
Definition py_or_str (a b : pystr) : pystr :=
  if truthy a then a else b.

(** [sep.join(parts)] *)
Fixpoint join (sep : pystr) (parts : list pystr) : pystr :=
  match parts with
  | [] => []
  | [p] => p
  | p :: rest => p ++ sep ++ join sep rest
  end.

(** [s.startswith(p)] *)
Fixpoint startswith (p s : pystr) : bool :=
  match p, s with
  | [], _ => true
  | _ :: _, [] => false
  | a :: p', b :: s' => (a =? b)%N && startswith p' s'
  end.

(** [s.replace(old, new)] for a non-empty [old]: the leftmost occurrences,
    not overlapping.  [skip] counts the characters of the current
    occurrence that are still to be passed over. *)
Fixpoint replace_from (old new : pystr) (skip : nat) (s : pystr) : pystr :=
  match s with
  | [] => []
  | c :: rest =>
      match skip with
      | S k => replace_from old new k rest
      | O =>
          if startswith old s
          then new ++ replace_from old new (pred (length old)) rest
          else c :: replace_from old new O rest
      end
  end.

Definition replace (old new s : pystr) : pystr := replace_from old new O s.

(** [str.isspace] on one code point, which is what [str.strip()] removes. *)
Definition isspace (c : N) : bool :=
  ((9 <=? c) && (c <=? 13) || (28 <=? c) && (c <=? 32)
   || (c =? 133) || (c =? 160) || (c =? 5760)
   || (8192 <=? c) && (c <=? 8202)
   || (c =? 8232) || (c =? 8233) || (c =? 8239) || (c =? 8287)
   || (c =? 12288))%N.

Fixpoint lstrip (s : pystr) : pystr :=
  match s with
  | [] => []
  | c :: rest => if isspace c then lstrip rest else s
  end.

Fixpoint rstrip (s : pystr) : pystr :=
  match s with
  | [] => []
  | c :: rest =>
      match rstrip rest with
      | [] => if isspace c then [] else [c]
      | kept => c :: kept
      end
  end.

(** [s.strip()] *)
Definition strip (s : pystr) : pystr := rstrip (lstrip s).

(** Line boundaries of [str.splitlines]. *)
Definition is_linebreak (c : N) : bool :=
  ((10 <=? c) && (c <=? 13) || (28 <=? c) && (c <=? 30)
   || (c =? 133) || (c =? 8232) || (c =? 8233))%N.

(** [s.splitlines()]: [cur] is the line being read, [after_cr] tells that
    the previous character was a carriage return, so that a line feed that
    follows belongs to the same boundary. *)
Fixpoint splitlines_from (cur : pystr) (after_cr : bool) (s : pystr)
  : list pystr :=
  match s with
  | [] => match cur with [] => [] | _ :: _ => [cur] end
  | c :: rest =>
      if after_cr && (c =? LF)%N then splitlines_from cur false rest
      else if is_linebreak c
           then cur :: splitlines_from [] (c =? CR)%N rest
           else splitlines_from (cur ++ [c]) false rest
  end.

Definition splitlines (s : pystr) : list pystr := splitlines_from [] false s.

(** [str(n)] for an [int]. *)
Definition str_of_int (n : Z) : pystr :=
  lit (NilZero.string_of_int (Z.to_int n)).

(** [int(x)] for a float: the integer part, truncated toward zero. *)
Definition py_int (x : Q) : Z := Z.quot (Qnum x) (Z.pos (Qden x)).

(** ** Regular-expression substitution

    Both patterns of the script are a character class repeated at least
    [least] times, [[ \t]+] and [\n{2,}].  [re_sub_runs cls least repl]
    is [re.sub] for such a pattern: every maximal run of class characters
    of length [least] or more is replaced by [repl], a shorter run stays.
    [run] holds the class characters read since the last other
    character. *)

Definition flush (least : nat) (repl run : pystr) : pystr :=
  match run with
  | [] => []
  | _ :: _ => if (least <=? length run)%nat then repl else run
  end.

Fixpoint re_sub_from (cls : N -> bool) (least : nat) (repl run s : pystr)
  : pystr :=
  match s with
  | [] => flush least repl run
  | c :: rest =>
      if cls c
      then re_sub_from cls least repl (run ++ [c]) rest
      else flush least repl run ++ c :: re_sub_from cls least repl [] rest
  end.

Definition re_sub_runs (cls : N -> bool) (least : nat) (repl s : pystr)
  : pystr :=
  re_sub_from cls least repl [] s.

(** The class [[ \t]] and the class [\n]. *)
Definition is_blank (c : N) : bool := ((c =? SPACE) || (c =? TAB))%N.
Definition is_newline (c : N) : bool := (c =? LF)%N.

(** [sorted(l, key=key, reverse=True)]: descending by key, and stable, so
    that records with equal keys keep the order they had in [l]. *)
Fixpoint insert_desc {A} (key : A -> Q) (x : A) (l : list A) : list A :=
  match l with
  | [] => [x]
  | y :: rest =>
      if negb (Qle_bool (key y) (key x))
      then y :: insert_desc key x rest
      else x :: l
  end.

Definition py_sorted_reverse {A} (key : A -> Q) (l : list A) : list A :=
  foldr (insert_desc key) [] l.

(** ** The routines the script imports *)

Class External := {
  (** bs4: a parsed document, and an element of it *)
  Soup : Type;
  Tag : Type;
  (** [BeautifulSoup(html, "html.parser")] *)
  BeautifulSoup : pystr -> Soup;
  (** [soup.select_one(selector)], [None] when nothing matches *)
  select_one : Soup -> pystr -> option Tag;
  (** [str(target)] *)
  tag_str : Tag -> pystr;
  (** [for tag in soup(names): tag.decompose()] *)
  decompose_all : list pystr -> Soup -> Soup;
  (** [soup.get_text(separator)] *)
  get_text : Soup -> pystr -> pystr;
  (** [hashlib.sha256(s.encode("utf-8")).hexdigest()] *)
  hexdigest_utf8 : pystr -> pystr;
  (** [difflib.unified_diff(a, b, fromfile=, tofile=, lineterm=)] *)
  unified_diff : list pystr -> list pystr -> pystr -> pystr -> pystr -> list pystr;
  (** [email.utils.format_datetime(datetime.fromtimestamp(ts, tz=utc))] *)
  format_datetime : Q -> pystr;
  (** [os.linesep] *)
  linesep : pystr
}.

(** ** Data of the script *)

(** An element of [urls.json]; [title] and [selector] are read with
    [.get].  A title that is there is a string. *)
Record Entry := {
  e_id : pystr;
  e_url : pystr;
  e_title : option pystr;
  e_selector : option pystr
}.

(** A value of [state.json]: every key is read with [.get], so a missing
    key and [null] are the same [None]. *)
Record TargetState := {
  st_hash : option pystr;
  st_etag : option pystr;
  st_last_modified : option pystr;
  st_last_text_file : option pystr
}.

(** The [{}] of [state.get(uid, {})]. *)
Definition no_state : TargetState :=
  {| st_hash := None; st_etag := None;
     st_last_modified := None; st_last_text_file := None |}.

(** An element of [changes.json]; [summary] is read with [.get]. *)
Record ChangeRecord := {
  c_id : pystr;
  c_url : pystr;
  c_title : pystr;
  c_timestamp : Q;
  c_hash : pystr;
  c_summary : option pystr
}.

(** What the loop reads of a [requests] response. *)
Record Response := {
  status_code : Z;
  header_ETag : option pystr;
  header_Last_Modified : option pystr;
  text : pystr
}.

(** The world of one run: the answer to the request of the [i]-th target
    of the list, and the [k]-th reading of the clock. *)
Record Env := {
  requests_get : nat -> pystr -> list (pystr * pystr) -> Response;
  time_time : nat -> Q
}.

(** The files of the script.  A JSON file holds the value that
    [json.loads] gives back; a snapshot is named by the id of its target
    and its file name, which stand for the path [SNAPSHOTS / uid / name]:
    two ids are kept apart, as the paths are when the ids are plain names
    of directories. *)
Record Disk := {
  URLS_FILE : option (list Entry);
  STATE_FILE : option (gmap pystr TargetState);
  CHANGES_FILE : option (list ChangeRecord);
  SNAPSHOTS : gmap (pystr * pystr) pystr;
  FEED_FILE : option pystr;
  INDEX_FILE : option pystr
}.

(** The variables of [main] while it loops, with the snapshot directory
    and the number of clock readings made so far. *)
Record Run := {
  state : gmap pystr TargetState;
  changes : list ChangeRecord;
  something_changed : bool;
  snap_files : gmap (pystr * pystr) pystr;
  clock_reads : nat
}.

Definition load_json {A} (p : option A) (default : A) : A :=
  match p with
  | Some v => v
  | None => default
  end.

Definition rfc2822_now `{External} (env : Env) (k : nat) (ts : option Q)
  : pystr * nat :=
  match ts with
  | Some t =>
      if Qeq_bool t 0
      then (format_datetime (time_time env k), S k)
      else (format_datetime t, k)
  | None => (format_datetime (time_time env k), S k)
  end.

Definition extract_text `{External} (soup : Soup) : pystr :=
  let soup := decompose_all [lit "script"; lit "style"; lit "noscript"] soup in
  let text := get_text soup [LF] in
  let text := re_sub_runs is_blank 1 [SPACE] text in
  strip (re_sub_runs is_newline 2 [LF] text).

Definition clean_html `{External} (html : pystr) (selector : option pystr)
  : pystr :=
  let soup := BeautifulSoup html in
  if truthy_opt selector then
    match select_one soup (default [] selector) with
    | None => []
    | Some target => extract_text (BeautifulSoup (tag_str target))
    end
  else extract_text soup.

Definition sha256 `{External} (s : pystr) : pystr := hexdigest_utf8 s.

Definition conditional_header (name : pystr) (v : option pystr)
  : list (pystr * pystr) :=
  if truthy_opt v then [(name, default [] v)] else [].

(** The response of [requests.get] when it returns one; that it may raise
    instead is the matter of [main_or_raise] below. *)
Definition fetch_with_conditionals (env : Env) (i : nat) (url : pystr)
    (prev_meta : TargetState) : Response :=
  let headers :=
    [ (lit "User-Agent",
       lit "GitHubActions-PageWatcher/1.0 (+https://github.com/)");
      (lit "Accept", lit "text/html,application/xhtml+xml") ]
    ++ conditional_header (lit "If-None-Match") (st_etag prev_meta)
    ++ conditional_header (lit "If-Modified-Since") (st_last_modified prev_meta) in
  requests_get env i url headers.

Definition index_page : pystr :=
  lit "<!doctype html><meta charset='utf-8'>"
  ++ lit "<title>Page Update Feed</title>"
  ++ lit "<h1>Page Update Feed</h1>"
  ++ lit "<p>Subscribe to the <a href='feed.xml'>RSS feed</a>.</p>".

Definition ensure_index_html (d : Disk) : Disk :=
  match INDEX_FILE d with
  | Some _ => d
  | None =>
      {| URLS_FILE := URLS_FILE d; STATE_FILE := STATE_FILE d;
         CHANGES_FILE := CHANGES_FILE d; SNAPSHOTS := SNAPSHOTS d;
         FEED_FILE := FEED_FILE d; INDEX_FILE := Some index_page |}
  end.

(** ** The feed *)

(** The local [esc] of [generate_feed]. *)
Definition esc (s : pystr) : pystr :=
  replace [GT] (lit "&gt;")
    (replace [LT] (lit "&lt;")
       (replace [AMP] (lit "&amp;") s)).

Definition item_title (c : ChangeRecord) : pystr := c_title c ++ lit " changed".
Definition item_link (c : ChangeRecord) : pystr := c_url c.
Definition item_guid (c : ChangeRecord) : pystr :=
  c_id c ++ lit ":" ++ str_of_int (py_int (c_timestamp c)).
Definition item_desc (c : ChangeRecord) : pystr :=
  default (lit "Content changed.") (c_summary c).

(** The f-string appended to [items_xml] for the record [c]. *)
Definition item_xml (pub_date : pystr) (c : ChangeRecord) : pystr :=
  lit "  <item>" ++ [LF]
  ++ lit "    <title>" ++ esc (item_title c) ++ lit "</title>" ++ [LF]
  ++ lit "    <link>" ++ esc (item_link c) ++ lit "</link>" ++ [LF]
  ++ lit "    <guid isPermaLink=" ++ [QUOT] ++ lit "false" ++ [QUOT] ++ lit ">"
  ++ esc (item_guid c) ++ lit "</guid>" ++ [LF]
  ++ lit "    <pubDate>" ++ pub_date ++ lit "</pubDate>" ++ [LF]
  ++ lit "    <description>" ++ esc (item_desc c) ++ lit "</description>" ++ [LF]
  ++ lit "  </item>".

(** The loop [for c in changes] of [generate_feed]; [k] counts the
    readings of the clock. *)
Fixpoint items_loop `{External} (env : Env) (k : nat) (cs : list ChangeRecord)
  : list pystr * nat :=
  match cs with
  | [] => ([], k)
  | c :: rest =>
      let '(pub_date, k1) := rfc2822_now env k (Some (c_timestamp c)) in
      let '(items_xml, k2) := items_loop env k1 rest in
      (item_xml pub_date c :: items_xml, k2)
  end.

Definition channel_title : pystr := lit "Page Update Checker".
Definition channel_link : pystr := [].
Definition channel_desc : pystr :=
  lit "RSS feed of diffs detected by the GitHub Actions watcher.".

(** The f-string [feed_xml]. *)
Definition feed_document `{External} (build_date : pystr) (items_xml : list pystr)
  : pystr :=
  lit "<?xml version=" ++ [QUOT] ++ lit "1.0" ++ [QUOT]
  ++ lit " encoding=" ++ [QUOT] ++ lit "UTF-8" ++ [QUOT] ++ lit "?>" ++ [LF]
  ++ lit "<rss version=" ++ [QUOT] ++ lit "2.0" ++ [QUOT] ++ lit ">" ++ [LF]
  ++ lit "<channel>" ++ [LF]
  ++ lit "  <title>" ++ channel_title ++ lit "</title>" ++ [LF]
  ++ lit "  <link>" ++ channel_link ++ lit "</link>" ++ [LF]
  ++ lit "  <description>" ++ channel_desc ++ lit "</description>" ++ [LF]
  ++ lit "  <lastBuildDate>" ++ build_date ++ lit "</lastBuildDate>" ++ [LF]
  ++ join linesep items_xml ++ [LF]
  ++ lit "</channel>" ++ [LF]
  ++ lit "</rss>" ++ [LF].

(** The records [generate_feed] renders, in the order it renders them. *)
Definition feed_records (changes : list ChangeRecord) : list ChangeRecord :=
  take 100 (py_sorted_reverse c_timestamp changes).

Definition write_feed (d : Disk) (feed_xml : pystr) : Disk :=
  {| URLS_FILE := URLS_FILE d; STATE_FILE := STATE_FILE d;
     CHANGES_FILE := CHANGES_FILE d; SNAPSHOTS := SNAPSHOTS d;
     FEED_FILE := Some feed_xml; INDEX_FILE := INDEX_FILE d |}.

Definition generate_feed `{External} (env : Env) (k : nat)
    (changes : list ChangeRecord) (d : Disk) : Disk :=
  let changes := feed_records changes in
  let '(items_xml, k1) := items_loop env k changes in
  let '(build_date, _) := rfc2822_now env k1 None in
  write_feed d (feed_document build_date items_xml).

(** ** The diff preview *)

Definition truncation_marker : pystr := lit "... (diff truncated)".
Definition fallback_summary : pystr := lit "Content changed.".

(** The loop [for i, line in enumerate(diff)]. *)
Fixpoint preview_loop (i : nat) (diff preview : list pystr) : list pystr :=
  match diff with
  | [] => preview
  | line :: rest =>
      if (20 <? i)%nat
      then preview ++ [truncation_marker]
      else preview_loop (S i) rest (preview ++ [line])
  end.

(** The summary computed from the lines of a diff. *)
Definition summary_of_diff (diff : list pystr) : pystr :=
  py_or_str (join [LF] (preview_loop 0 diff [])) fallback_summary.

(** [old_text]: the previous snapshot, read after the new one is written. *)
Definition read_old_text (files : gmap (pystr * pystr) pystr) (uid : pystr)
    (prev : TargetState) : option pystr :=
  if truthy_opt (st_last_text_file prev)
  then files !! (uid, default [] (st_last_text_file prev))
  else None.

Definition summarize `{External} (old_text : option pystr) (text : pystr)
  : pystr :=
  if truthy_opt old_text
  then summary_of_diff
         (unified_diff (splitlines (default [] old_text)) (splitlines text)
            (lit "before") (lit "after") [])
  else fallback_summary.

(** ** The loop of [main] *)

Definition is_success (status : Z) : bool :=
  ((200 <=? status) && (status <? 300))%Z.

Definition snapshot_name (ts : Q) (ext : pystr) : pystr :=
  str_of_int (py_int ts) ++ ext.

(** The branch [if prev.get("hash") != h]. *)
Definition record_change `{External} (env : Env) (entry : Entry)
    (prev : TargetState) (resp : Response) (content h : pystr) (r : Run)
  : Run :=
  let uid := e_id entry in
  let url := e_url entry in
  let title := default url (e_title entry) in
  let ts := time_time env (clock_reads r) in
  let files := <[(uid, snapshot_name ts (lit ".txt")) := content]> (snap_files r) in
  let files := <[(uid, snapshot_name ts (lit ".html")) := text resp]> files in
  let summary := summarize (read_old_text files uid prev) content in
  {| state :=
       <[uid := {| st_hash := Some h;
                   st_etag := header_ETag resp;
                   st_last_modified := header_Last_Modified resp;
                   st_last_text_file := Some (snapshot_name ts (lit ".txt")) |}]>
         (state r);
     changes :=
       changes r ++ [{| c_id := uid; c_url := url; c_title := title;
                        c_timestamp := ts; c_hash := h;
                        c_summary := Some summary |}];
     something_changed := true;
     snap_files := files;
     clock_reads := S (clock_reads r) |}.

(** The branch [else]: the hash is the stored one. *)
Definition refresh_validators (entry : Entry) (prev : TargetState)
    (resp : Response) (h : pystr) (r : Run) : Run :=
  {| state :=
       <[e_id entry :=
           {| st_hash := Some h;
              st_etag := py_or (header_ETag resp) (st_etag prev);
              st_last_modified :=
                py_or (header_Last_Modified resp) (st_last_modified prev);
              st_last_text_file := st_last_text_file prev |}]>
         (state r);
     changes := changes r;
     something_changed := something_changed r;
     snap_files := snap_files r;
     clock_reads := clock_reads r |}.

(** What the body of the loop does once the response is there. *)
Definition handle_response `{External} (env : Env) (entry : Entry)
    (prev : TargetState) (resp : Response) (r : Run) : Run :=
  if (status_code resp =? 304)%Z then r
  else if negb (is_success (status_code resp)) then r
  else
    let content := clean_html (text resp) (e_selector entry) in
    let h := sha256 content in
    if negb (bool_decide (st_hash prev = Some h))
    then record_change env entry prev resp content h r
    else refresh_validators entry prev resp h r.

(** The body of [for entry in urls], for the [i]-th entry. *)
Definition visit `{External} (env : Env) (i : nat) (entry : Entry) (r : Run)
  : Run :=
  let prev := default no_state (state r !! e_id entry) in
  let resp := fetch_with_conditionals env i (e_url entry) prev in
  handle_response env entry prev resp r.

Fixpoint for_each_entry `{External} (env : Env) (i : nat) (urls : list Entry)
    (r : Run) : Run :=
  match urls with
  | [] => r
  | entry :: rest => for_each_entry env (S i) rest (visit env i entry r)
  end.

(** [changes = sorted(changes, key=..., reverse=True)[:1000]] *)
Definition bounded_log (changes : list ChangeRecord) : list ChangeRecord :=
  take 1000 (py_sorted_reverse c_timestamp changes).

Definition start_of_run (d : Disk) : Run :=
  {| state := load_json (STATE_FILE d) ∅;
     changes := load_json (CHANGES_FILE d) [];
     something_changed := false;
     snap_files := SNAPSHOTS d;
     clock_reads := 0 |}.

(** The run up to the end of the loop. *)
Definition after_loop `{External} (env : Env) (d : Disk) : Run :=
  for_each_entry env 0 (load_json (URLS_FILE d) []) (start_of_run d).

Definition main `{External} (env : Env) (d : Disk) : Disk :=
  let r := after_loop env d in
  if something_changed r then
    let changes := bounded_log (changes r) in
    let d := {| URLS_FILE := URLS_FILE d; STATE_FILE := Some (state r);
                CHANGES_FILE := Some changes; SNAPSHOTS := snap_files r;
                FEED_FILE := FEED_FILE d; INDEX_FILE := INDEX_FILE d |} in
    generate_feed env (clock_reads r) changes (ensure_index_html d)
  else
    let d := {| URLS_FILE := URLS_FILE d; STATE_FILE := STATE_FILE d;
                CHANGES_FILE := CHANGES_FILE d; SNAPSHOTS := snap_files r;
                FEED_FILE := FEED_FILE d; INDEX_FILE := INDEX_FILE d |} in
    generate_feed env (clock_reads r) (changes r) (ensure_index_html d).

(** One run after the other, each with its own world. *)
Fixpoint runs `{External} (envs : list Env) (d : Disk) : Disk :=
  match envs with
  | [] => d
  | env :: later => runs later (main env d)
  end.

(** ** A request that raises

    [requests.get] does not always return: on a timeout or a refused
    connection it raises, and nothing in the script catches the
    exception.  [for_each_entry] and [main] above are the loop and the run
    in which every request returns.  Below, [raises i] tells that the
    request for the [i]-th target raises: the loop ends there and the run
    with it, after the snapshots of the targets before were written and
    before any other file is. *)



(** ** Predicates used to state the properties *)

(** Two neighbouring characters of [s] are both in the class [cls]. *)
Fixpoint adjacent (cls : N -> bool) (s : pystr) : bool :=
  match s with
  | [] => false
  | a :: rest =>
      match rest with
      | [] => false
      | b :: _ => cls a && cls b || adjacent cls rest
      end
  end.

(** [s] is empty or begins with a character outside [cls]. *)
Definition starts_outside (cls : N -> bool) (s : pystr) : Prop :=
  match s with
  | [] => True
  | c :: _ => cls c = false
  end.

(** [s] is empty or ends with a character outside [cls]. *)
Definition ends_outside (cls : N -> bool) (s : pystr) : Prop :=
  match last s with
  | None => True
  | Some c => cls c = false
  end.

(** The words of the specification of the normalizer, "runs of ...
    collapse to a single ...": [collapsed cls r s t] holds when [t] is [s]
    with every maximal run of characters of [cls] replaced by the one
    character [r], and every other character kept. *)
Inductive collapsed (cls : N -> bool) (r : N) : pystr -> pystr -> Prop :=
| collapsed_nil : collapsed cls r [] []
| collapsed_keep c s t :
    cls c = false -> collapsed cls r s t -> collapsed cls r (c :: s) (c :: t)
| collapsed_run run s t :
    run <> [] -> Forall (fun c => cls c = true) run -> starts_outside cls s ->
    collapsed cls r s t -> collapsed cls r (run ++ s) (r :: t).

(** [out] is [raw] normalized as the specification of the normalizer
    words it: the runs of spaces and tabs are collapsed to one space, then
    the runs of newlines to one newline, and the whitespace at both ends
    is taken off. *)
Definition normalized_from (raw out : pystr) : Prop :=
  exists t1 t2 before after,
    collapsed is_blank SPACE raw t1
    /\ collapsed is_newline LF t1 t2
    /\ t2 = before ++ out ++ after
    /\ Forall (fun c => isspace c = true) before
    /\ Forall (fun c => isspace c = true) after
    /\ starts_outside isspace out
    /\ ends_outside isspace out.

(** [out] has no tab, no two neighbouring spaces, no two neighbouring
    newlines, and no whitespace at either end. *)
Definition well_spaced (out : pystr) : Prop :=
  Forall (fun c => c <> TAB) out
  /\ adjacent is_blank out = false
  /\ adjacent is_newline out = false
  /\ starts_outside isspace out
  /\ ends_outside isspace out.

(** The entity that the feed writes for one character. *)
Definition entity (c : N) : pystr :=
  if (c =? AMP)%N then lit "&amp;"
  else if (c =? LT)%N then lit "&lt;"
  else if (c =? GT)%N then lit "&gt;"
  else [c].

(** Descending by timestamp. *)
Definition newer_first (a b : ChangeRecord) : Prop :=
  (c_timestamp b <= c_timestamp a)%Q.

(** A change log within its bound: at most 1000 records, newest first. *)
Definition log_bounded (l : list ChangeRecord) : Prop :=
  length l <= 1000 /\ StronglySorted newer_first l.

(** [kept] holds the most recent records of [l], and [dropped] the others:
    together they are the records of [l], and no dropped record is more
    recent than a kept one. *)
Definition most_recent_of (l kept dropped : list ChangeRecord) : Prop :=
  Permutation l (kept ++ dropped)
  /\ Forall (fun k => Forall (fun x => newer_first k x) dropped) kept.

(** ** A stand-in for the imported routines

    It is used to evaluate the script on concrete inputs: a document is
    plain text, the content of its one element [body], so that no other
    selector matches and there is nothing to decompose; the fingerprint
    of a text is the text itself;
    a date is printed as its integer second; and the diff replaces the
    whole of the old lines by the whole of the new lines in one hunk,
    which is what difflib prints for two files without a common line. *)

Definition unified_range (lines : list pystr) : pystr :=
  match length lines with
  | O => lit "0,0"
  | S O => lit "1"
  | n => lit "1," ++ str_of_int (Z.of_nat n)
  end.

Definition whole_file_diff (a b : list pystr) (fromfile tofile lineterm : pystr)
  : list pystr :=
  if bool_decide (a = b) then []
  else
    [ lit "--- " ++ fromfile ++ lineterm;
      lit "+++ " ++ tofile ++ lineterm;
      lit "@@ -" ++ unified_range a ++ lit " +" ++ unified_range b
        ++ lit " @@" ++ lineterm ]
    ++ map (fun line => lit "-" ++ line) a
    ++ map (fun line => lit "+" ++ line) b.

Definition plain_text : External :=
  {| Soup := pystr;
     Tag := pystr;
     BeautifulSoup := fun html => html;
     select_one := fun soup selector =>
       if bool_decide (selector = lit "body") then Some soup else None;
     tag_str := fun t => t;
     decompose_all := fun _ soup => soup;
     get_text := fun soup _ => soup;
     hexdigest_utf8 := fun s => s;
     unified_diff := whole_file_diff;
     format_datetime := fun ts => str_of_int (py_int ts);
     linesep := [LF] |}.

(** A world in which every request is answered by [resp] and the clock
    always reads [now]. *)
Definition constant_world (resp : Response) (now : Q) : Env :=
  {| requests_get := fun _ _ _ => resp; time_time := fun _ => now |}.

Definition ok_response (etag : option pystr) (body : pystr) : Response :=
  {| status_code := 200; header_ETag := etag;
     header_Last_Modified := None; text := body |}.

Definition watch_a : Entry :=
  {| e_id := lit "a"; e_url := lit "https://example.com/x";
     e_title := None; e_selector := None |}.

Definition fresh_run : Run :=
  {| state := ∅; changes := []; something_changed := false;
     snap_files := ∅; clock_reads := 0 |}.

Definition empty_disk : Disk :=
  {| URLS_FILE := Some [watch_a]; STATE_FILE := None; CHANGES_FILE := None;
     SNAPSHOTS := ∅; FEED_FILE := None; INDEX_FILE := None |}.

(** A state file entry for the target [a], and a run that starts from it. *)
Definition known_state (h : pystr) (etag file : option pystr) : TargetState :=
  {| st_hash := Some h; st_etag := etag;
     st_last_modified := None; st_last_text_file := file |}.

Definition run_from (st : TargetState) (files : gmap (pystr * pystr) pystr)
  : Run :=
  {| state := {[ lit "a" := st ]}; changes := []; something_changed := false;
     snap_files := files; clock_reads := 0 |}.

(** ** Two sentences of the specification, as they are worded

    They are compared with the script below. *)

(** "Each validator is replaced by the server-supplied value when present,
    otherwise retained." *)
Definition replaced_when_present (supplied previous stored : option pystr)
  : Prop :=
  match supplied with
  | Some v => stored = Some v
  | None => stored = previous
  end.

Definition validators_follow_presence `{External} (env : Env) (i : nat)
    (entry : Entry) (r : Run) : Prop :=
  let prev := default no_state (state r !! e_id entry) in
  let resp := fetch_with_conditionals env i (e_url entry) prev in
  let h := sha256 (clean_html (text resp) (e_selector entry)) in
  is_success (status_code resp) = true ->
  st_hash prev = Some h ->
  exists stored,
    state (visit env i entry r) !! e_id entry = Some stored
    /\ replaced_when_present (header_ETag resp) (st_etag prev) (st_etag stored)
    /\ replaced_when_present (header_Last_Modified resp)
         (st_last_modified prev) (st_last_modified stored).

(** "If the stored snapshot pointer resolves to an existing previous
    snapshot file, the summary is a unified diff between the previous and
    the current normalized text (subject to truncation)", the fallback
    standing for an empty diff only. *)
Definition diff_whenever_snapshot_exists `{External} (env : Env) (i : nat)
    (entry : Entry) (r : Run) : Prop :=
  let prev := default no_state (state r !! e_id entry) in
  let resp := fetch_with_conditionals env i (e_url entry) prev in
  let content := clean_html (text resp) (e_selector entry) in
  is_success (status_code resp) = true ->
  st_hash prev <> Some (sha256 content) ->
  forall name old_text,
    st_last_text_file prev = Some name ->
    snap_files r !! (e_id entry, name) = Some old_text ->
    exists c,
      last (changes (visit env i entry r)) = Some c
      /\ c_summary c
         = Some (summary_of_diff
                   (unified_diff (splitlines old_text) (splitlines content)
                      (lit "before") (lit "after") [])).

(** "Every run of horizontal whitespace is collapsed to a single space,
    every run of blank lines is collapsed to a single newline, and the
    result has no leading or trailing whitespace."  Horizontal whitespace
    is whitespace that ends no line; a blank line is a line that holds
    whitespace only. *)
Definition is_horizontal (c : N) : bool := isspace c && negb (is_linebreak c).

(** Two newlines of [s] have nothing but whitespace between them;
    [after_newline] tells that only whitespace was read since a newline. *)
Fixpoint blank_line_inside (after_newline : bool) (s : pystr) : bool :=
  match s with
  | [] => false
  | c :: rest =>
      if is_newline c then after_newline || blank_line_inside true rest
      else if isspace c then blank_line_inside after_newline rest
      else blank_line_inside false rest
  end.

Definition normalized_as_worded (out : pystr) : Prop :=
  adjacent is_horizontal out = false
  /\ Forall (fun c => is_horizontal c = true -> c = SPACE) out
  /\ blank_line_inside false out = false
  /\ starts_outside isspace out
  /\ ends_outside isspace out.


(** ** Notions used by the further properties *)

(** [headers.get(name)] on the headers of a request; as in a [dict], the
    value given last to a name is the one it has. *)
Fixpoint header_value (name : pystr) (headers : list (pystr * pystr))
  : option pystr :=
  match headers with
  | [] => None
  | (k, v) :: rest =>
      match header_value name rest with
      | Some later => Some later
      | None => if bool_decide (k = name) then Some v else None
      end
  end.

(** Every snapshot pointer of the state names a snapshot file of its
    target, and the stored hash is the hash of the text of that file. *)
Definition snapshots_consistent `{External} (st : gmap pystr TargetState)
    (files : gmap (pystr * pystr) pystr) : Prop :=
  forall uid rec name,
    st !! uid = Some rec ->
    st_last_text_file rec = Some name ->
    exists content,
      files !! (uid, name) = Some content
      /\ st_hash rec = Some (sha256 content).

(** The answer to the [i]-th request, whatever its headers, is not a
    success, or its normalized text has the hash that [st] holds for the
    target. *)
Definition known_content `{External} (env : Env)
    (st : gmap pystr TargetState) (i : nat) (entry : Entry) : Prop :=
  forall headers,
    let resp := requests_get env i (e_url entry) headers in
    ~ (200 <= status_code resp < 300)%Z
    \/ st_hash (default no_state (st !! e_id entry))
       = Some (sha256 (clean_html (text resp) (e_selector entry))).

(** Every request of the world is answered by a success. *)
Definition always_succeeds (env : Env) : Prop :=
  forall i url headers,
    (200 <= status_code (requests_get env i url headers) < 300)%Z.

(** The answers of the world [again] are those of the world [before] for
    the targets of [urls]: the answer to the [j]-th request is not a
    success, or it has the text with which [before] answers that request
    with a success. *)
Definition same_pages (before again : Env) (urls : list Entry) : Prop :=
  forall j entry headers headers',
    urls !! j = Some entry ->
    let first := requests_get before j (e_url entry) headers in
    let second := requests_get again j (e_url entry) headers' in
    ~ (200 <= status_code second < 300)%Z
    \/ ((200 <= status_code first < 300)%Z /\ text second = text first).

(** An id that is a plain name of a directory: not empty, not [.] nor
    [..], without a slash and without a null character.  The script keeps
    the snapshots of a target in the directory [SNAPSHOTS / uid]; for
    plain ids, different ids are different directories, as the pairs (id,
    file name) that name the snapshot files here have it. *)
Definition plain_id (uid : pystr) : Prop :=
  uid <> [] /\ uid <> lit "." /\ uid <> lit ".."
  /\ Forall (fun c => c <> 47%N /\ c <> 0%N) uid.



(** The characters of a text that are not whitespace. *)
Definition visible (s : pystr) : pystr :=
  filter (fun c => isspace c = false) s.

(** The records of a log that bear the timestamp [t]. *)
Definition at_time (t : Q) (l : list ChangeRecord) : list ChangeRecord :=
  filter (fun c => Qeq_bool (c_timestamp c) t = true) l.

(** * Properties *)

(** ** The string routines on concrete inputs *)

Example join_3 : join (lit ", ") [lit "a"; lit "b"; lit "c"] = lit "a, b, c".
Proof. reflexivity. Qed.

Example replace_word : replace (lit "aa") (lit "b") (lit "aaaxaa") = lit "baxb".
Proof. reflexivity. Qed.

Example strip_ex : strip ([TAB; LF] ++ lit " a  b " ++ [LF; 160%N]) = lit "a  b".
Proof. reflexivity. Qed.

Example splitlines_ex :
  splitlines (lit "a" ++ [LF; LF] ++ lit "b" ++ [CR; LF] ++ lit "c" ++ [LF])
  = [lit "a"; []; lit "b"; lit "c"].
Proof. reflexivity. Qed.

Example re_sub_blank_ex :
  re_sub_runs is_blank 1 [SPACE] (lit "a  " ++ [TAB] ++ lit " b c") = lit "a b c".
Proof. reflexivity. Qed.

Example re_sub_newline_ex :
  re_sub_runs is_newline 2 [LF]
    (lit "a" ++ [LF; LF; LF] ++ lit "b" ++ [LF] ++ lit "c")
  = lit "a" ++ [LF] ++ lit "b" ++ [LF] ++ lit "c".
Proof. reflexivity. Qed.

Example py_int_ex :
  py_int (-3 # 2) = (-1)%Z /\ py_int (7 # 2) = 3%Z /\ str_of_int (-12) = lit "-12".
Proof. repeat split. Qed.

Example esc_ex : esc (lit "a<b & c>d") = lit "a&lt;b &amp; c&gt;d".
Proof. reflexivity. Qed.

(** ** Substitution of runs *)

Section Adjacent.
Variable cls : N -> bool.

Lemma adjacent_cons a s :
  adjacent cls (a :: s) = false ->
  adjacent cls s = false.
Proof.
  destruct s as [|b s]; [done|].
  cbn [adjacent]. intros Hadj.
  apply orb_false_iff in Hadj as [_ Hrest]. exact Hrest.
Qed.

Lemma adjacent_app_r s1 s2 :
  adjacent cls (s1 ++ s2) = false -> adjacent cls s2 = false.
Proof.
  induction s1 as [|a s1 IH]; [done|].
  intros Hadj. apply IH. exact (adjacent_cons a _ Hadj).
Qed.

Lemma adjacent_app_l s1 s2 :
  adjacent cls (s1 ++ s2) = false -> adjacent cls s1 = false.
Proof.
  induction s1 as [|a s1 IH]; [done|].
  intros Hadj. pose proof (adjacent_cons _ _ Hadj) as Htail.
  specialize (IH Htail).
  destruct s1 as [|b s1]; [done|].
  cbn [adjacent app] in *.
  apply orb_false_iff in Hadj as [Hpair _].
  rewrite Hpair. exact IH.
Qed.

Lemma adjacent_push a s :
  adjacent cls s = false ->
  (cls a = false \/ starts_outside cls s) ->
  adjacent cls (a :: s) = false.
Proof.
  destruct s as [|b s]; [done|].
  intros Hs Hhead. change (cls a && cls b || adjacent cls (b :: s) = false).
  rewrite Hs, orb_false_r.
  destruct Hhead as [Ha|Hb]; [by rewrite Ha | cbn in Hb; rewrite Hb; apply andb_false_r].
Qed.

End Adjacent.

Section Runs.
Variable cls : N -> bool.
Variable r : N.

Lemma collapsed_starts_outside s t :
  collapsed cls r s t -> starts_outside cls s -> starts_outside cls t.
Proof.
  intros Hc Hs. destruct Hc as [|c s t Hcls _|run s t Hne Hrun _ _]; [done|done|].
  destruct run as [|c run]; [done|].
  apply Forall_cons in Hrun as [Hc _]. cbn in Hs. congruence.
Qed.

(** The first character of the result is [r] or the first of the input. *)
Lemma collapsed_head s t x t' :
  collapsed cls r s t -> t = x :: t' ->
  x = r \/ exists s', s = x :: s'.
Proof.
  intros Hc Ht. destruct Hc; simplify_eq; eauto.
Qed.

(** No two characters of the class are neighbours in the result. *)
Lemma collapsed_no_adjacent s t :
  collapsed cls r s t -> adjacent cls t = false.
Proof.
  induction 1 as [|c s t Hc _ IH|run s t _ _ Hs Hst IH]; [done| |].
  - apply adjacent_push; auto.
  - apply adjacent_push; [done|]. right.
    eapply collapsed_starts_outside; eauto.
Qed.

(** The only character of the class left in the result is [r]. *)
Lemma collapsed_only_r s t :
  collapsed cls r s t -> Forall (fun c => cls c = true -> c = r) t.
Proof.
  induction 1 as [|c s t Hc _ IH|run s t _ _ _ _ IH]; constructor; auto.
  intros Hc'. congruence.
Qed.

(** A property of every character of the input, and of [r], is a
    property of every character of the result. *)
Lemma collapsed_Forall (P : N -> Prop) s t :
  collapsed cls r s t -> P r -> Forall P s -> Forall P t.
Proof.
  intros Hc Hr. induction Hc as [|c s t _ _ IH|run s t _ _ _ _ IH]; intros Hs.
  - constructor.
  - apply Forall_cons in Hs as [? ?]. constructor; auto.
  - apply Forall_app in Hs as [_ ?]. constructor; auto.
Qed.

(** Collapsing the runs of [cls] into [r] brings no two characters of
    another class [other] together, when [r] is not in it. *)
Lemma collapsed_keeps_apart (other : N -> bool) s t :
  other r = false ->
  collapsed cls r s t ->
  adjacent other s = false -> adjacent other t = false.
Proof.
  intros Hr Hc. induction Hc as [|c s t _ Hst IH|run s t _ _ _ _ IH]; intros Hs.
  - done.
  - pose proof (IH (adjacent_cons other _ _ Hs)) as Ht.
    destruct t as [|x t']; [done|].
    change (other c && other x || adjacent other (x :: t') = false).
    rewrite Ht, orb_false_r.
    destruct (collapsed_head _ _ x t' Hst eq_refl) as [->|[s' ->]].
    + rewrite Hr. apply andb_false_r.
    + cbn [adjacent] in Hs. apply orb_false_iff in Hs as [Hpair _]. exact Hpair.
  - pose proof (IH (adjacent_app_r other _ _ Hs)) as Ht.
    destruct t as [|x t']; [done|].
    change (other r && other x || adjacent other (x :: t') = false).
    by rewrite Ht, Hr.
Qed.

Variable least : nat.
Variable repl : pystr.

(** When every run that is met is rewritten to [[r]], the substitution
    collapses the runs. *)
Hypothesis flush_run :
  forall run, run <> [] -> Forall (fun c => cls c = true) run ->
              flush least repl run = [r].

Lemma flush_pending run t :
  Forall (fun c => cls c = true) run ->
  flush least repl run ++ t = match run with [] => t | _ :: _ => r :: t end.
Proof.
  intros Hrun. destruct run as [|c run]; [done|].
  by rewrite flush_run.
Qed.

Lemma re_sub_from_collapsed s : forall run,
  Forall (fun c => cls c = true) run ->
  collapsed cls r (run ++ s) (re_sub_from cls least repl run s).
Proof.
  induction s as [|c s IH]; intros run Hrun; cbn [re_sub_from].
  - rewrite <- (app_nil_r (flush least repl run)), flush_pending by done.
    destruct run as [|x run]; [constructor|].
    apply collapsed_run; [done|done|done|constructor].
  - destruct (cls c) eqn:Hc.
    + replace (run ++ c :: s) with ((run ++ [c]) ++ s) by (by rewrite <- app_assoc).
      apply IH. apply Forall_app. split; [done|]. by constructor.
    + rewrite flush_pending by done.
      assert (collapsed cls r (c :: s) (c :: re_sub_from cls least repl [] s)) as Hrest.
      { apply collapsed_keep; [done|]. apply (IH []). constructor. }
      destruct run as [|x run]; [exact Hrest|].
      apply collapsed_run; [done|done|exact Hc|exact Hrest].
Qed.

Lemma re_sub_runs_collapsed s :
  collapsed cls r s (re_sub_runs cls least repl s).
Proof. apply (re_sub_from_collapsed s []). constructor. Qed.
End Runs.

Lemma flush_blank run :
  run <> [] -> Forall (fun c => is_blank c = true) run -> flush 1 [SPACE] run = [SPACE].
Proof. destruct run; [done|]. reflexivity. Qed.

Lemma flush_newline run :
  run <> [] -> Forall (fun c => is_newline c = true) run -> flush 2 [LF] run = [LF].
Proof.
  destruct run as [|a [|b run]]; [done| |reflexivity].
  intros _ Hrun. apply Forall_cons in Hrun as [Ha _].
  apply N.eqb_eq in Ha. by subst.
Qed.

(** [re.sub(r"[ \t]+", " ", s)] collapses every run of spaces and tabs to
    one space. *)
Lemma sub_blank_collapsed s :
  collapsed is_blank SPACE s (re_sub_runs is_blank 1 [SPACE] s).
Proof. apply re_sub_runs_collapsed, flush_blank. Qed.

(** [re.sub(r"\n{2,}", "\n", s)] collapses every run of newlines to one
    newline. *)
Lemma sub_newline_collapsed s :
  collapsed is_newline LF s (re_sub_runs is_newline 2 [LF] s).
Proof. apply re_sub_runs_collapsed, flush_newline. Qed.

(** ** [strip] *)

Lemma lstrip_suffix s :
  exists before, s = before ++ lstrip s /\ Forall (fun c => isspace c = true) before.
Proof.
  induction s as [|c s (before & Hs & Hbefore)]; [by exists []|].
  cbn [lstrip]. destruct (isspace c) eqn:Hc.
  - exists (c :: before). split; [by rewrite Hs at 1|]. by constructor.
  - by exists [].
Qed.

Lemma lstrip_starts_outside s : starts_outside isspace (lstrip s).
Proof.
  induction s as [|c s IH]; [done|].
  cbn [lstrip]. by destruct (isspace c) eqn:Hc.
Qed.

Lemma rstrip_prefix s :
  exists after, s = rstrip s ++ after /\ Forall (fun c => isspace c = true) after.
Proof.
  induction s as [|c s (after & Hs & Hafter)]; [by exists []|].
  cbn [rstrip]. destruct (rstrip s) as [|k kept] eqn:Hkept.
  - destruct (isspace c) eqn:Hc.
    + exists (c :: after). split; [by rewrite Hs at 1|]. by constructor.
    + exists after. split; [by rewrite Hs at 1|done].
  - exists after. split; [by rewrite Hs at 1|done].
Qed.

Lemma rstrip_ends_outside s : ends_outside isspace (rstrip s).
Proof.
  unfold ends_outside. induction s as [|c s IH]; [done|].
  cbn [rstrip]. destruct (rstrip s) as [|k kept] eqn:Hkept.
  - by destruct (isspace c) eqn:Hc.
  - exact IH.
Qed.

Lemma rstrip_starts_outside s :
  starts_outside isspace s -> starts_outside isspace (rstrip s).
Proof.
  destruct s as [|c s]; [done|].
  cbn [rstrip starts_outside]. intros Hc.
  destruct (rstrip s); [by rewrite Hc|done].
Qed.

(** [s.strip()] is [s] without the whitespace at its two ends. *)
Lemma strip_spec s :
  exists before after,
    s = before ++ strip s ++ after
    /\ Forall (fun c => isspace c = true) before
    /\ Forall (fun c => isspace c = true) after
    /\ starts_outside isspace (strip s)
    /\ ends_outside isspace (strip s).
Proof.
  destruct (lstrip_suffix s) as (before & Hs & Hbefore).
  destruct (rstrip_prefix (lstrip s)) as (after & Hl & Hafter).
  exists before, after. unfold strip. repeat split; try done.
  - by rewrite <- Hl.
  - apply rstrip_starts_outside, lstrip_starts_outside.
  - apply rstrip_ends_outside.
Qed.

(** ** The normalizer *)

Lemma normalize_space raw :
  let out := strip (re_sub_runs is_newline 2 [LF] (re_sub_runs is_blank 1 [SPACE] raw)) in
  normalized_from raw out /\ well_spaced out.
Proof.
  intros out.
  set (t1 := re_sub_runs is_blank 1 [SPACE] raw).
  set (t2 := re_sub_runs is_newline 2 [LF] t1).
  pose proof (sub_blank_collapsed raw) as H1. fold t1 in H1.
  pose proof (sub_newline_collapsed t1) as H2. fold t2 in H2.
  destruct (strip_spec t2) as (before & after & Ht2 & Hb & Ha & Hstart & Hend).
  fold out in Ht2, Hstart, Hend.
  split; [by exists t1, t2, before, after|].
  assert (Forall (fun c => c <> TAB) t2) as Htab.
  { apply (collapsed_Forall _ _ _ _ _ H2); [done|].
    eapply Forall_impl; [exact (collapsed_only_r _ _ _ _ H1)|].
    intros c Hc ->. by specialize (Hc eq_refl). }
  assert (adjacent is_blank t2 = false) as Hblank.
  { apply (collapsed_keeps_apart is_newline LF is_blank _ _ eq_refl H2).
    exact (collapsed_no_adjacent _ _ _ _ H1). }
  pose proof (collapsed_no_adjacent _ _ _ _ H2) as Hnl.
  rewrite Ht2 in Htab, Hblank, Hnl.
  repeat split; try done.
  - apply Forall_app in Htab as [_ Htab]. by apply Forall_app in Htab as [Htab _].
  - eapply adjacent_app_l, adjacent_app_r, Hblank.
  - eapply adjacent_app_l, adjacent_app_r, Hnl.
Qed.

Section Normalizer.
Context `{External}.

Lemma extract_text_normalized soup :
  normalized_from
    (get_text (decompose_all [lit "script"; lit "style"; lit "noscript"] soup) [LF])
    (extract_text soup)
  /\ well_spaced (extract_text soup).
Proof. apply normalize_space. Qed.

Lemma clean_html_well_spaced html selector :
  well_spaced (clean_html html selector).
Proof.
  unfold clean_html.
  destruct (truthy_opt selector); [|apply extract_text_normalized].
  destruct (select_one _ _); [apply extract_text_normalized|].
  by repeat split.
Qed.

(** C7, as amended.  Whatever the document and the selector, [clean_html] gives the
    empty text when a selector is given and matches nothing; otherwise
    it takes the text of the document, or of the matched element,
    after the script, style and noscript elements are decomposed, and
    the output is that text with every run of spaces and tabs collapsed
    to one space, every run of newlines collapsed to one newline, and
    the whitespace at both ends removed.  In every case the output has
    no tab, no two neighbouring spaces, no two neighbouring newlines and
    no whitespace at either end. *)
Theorem C7_clean_html_normalizes (html : pystr) (selector : option pystr) :
  (truthy_opt selector = true ->
   select_one (BeautifulSoup html) (default [] selector) = None ->
   clean_html html selector = [])
  /\ (forall target,
        truthy_opt selector = true ->
        select_one (BeautifulSoup html) (default [] selector) = Some target ->
        normalized_from
          (get_text
             (decompose_all [lit "script"; lit "style"; lit "noscript"]
                (BeautifulSoup (tag_str target))) [LF])
          (clean_html html selector))
  /\ (truthy_opt selector = false ->
        normalized_from
          (get_text
             (decompose_all [lit "script"; lit "style"; lit "noscript"]
                (BeautifulSoup html)) [LF])
          (clean_html html selector))
  /\ well_spaced (clean_html html selector).
Proof.
  split; [|split; [|split]].
  - unfold clean_html. by intros -> ->.
  - unfold clean_html. intros target -> ->. apply extract_text_normalized.
  - unfold clean_html. intros ->. apply extract_text_normalized.
  - apply clean_html_well_spaced.
Qed.
End Normalizer.

(** ** Escaping *)

Lemma replace_char c new s :
  replace [c] new s = flat_map (fun x => if (c =? x)%N then new else [x]) s.
Proof.
  unfold replace. induction s as [|x s IH]; [done|].
  cbn [replace_from startswith flat_map length pred].
  rewrite andb_true_r. destruct (c =? x)%N; by rewrite IH.
Qed.

Lemma entity_chain x :
  flat_map (fun y => if (GT =? y)%N then lit "&gt;" else [y])
    (flat_map (fun y => if (LT =? y)%N then lit "&lt;" else [y])
       (if (AMP =? x)%N then lit "&amp;" else [x]))
  = entity x.
Proof.
  unfold entity. rewrite (N.eqb_sym x AMP), (N.eqb_sym x LT), (N.eqb_sym x GT).
  destruct (AMP =? x)%N eqn:Hamp; [reflexivity|].
  cbn [flat_map]. rewrite app_nil_r.
  destruct (LT =? x)%N eqn:Hlt; [reflexivity|].
  cbn [flat_map]. by rewrite app_nil_r.
Qed.

(** [esc] rewrites every character on its own: [&], [<] and [>] to their
    entities, any other character to itself. *)
Lemma esc_flat_map s : esc s = flat_map entity s.
Proof.
  unfold esc. rewrite !replace_char.
  induction s as [|x s IH]; [done|].
  cbn [flat_map]. rewrite !flat_map_app, IH. f_equal.
  apply entity_chain.
Qed.

Lemma esc_app s1 s2 : esc (s1 ++ s2) = esc s1 ++ esc s2.
Proof. rewrite !esc_flat_map. apply flat_map_app. Qed.

Lemma entity_no_markup x : Forall (fun ch => ch <> LT /\ ch <> GT) (entity x).
Proof.
  unfold entity.
  destruct (N.eqb_spec x AMP); [by repeat constructor|].
  destruct (N.eqb_spec x LT); [by repeat constructor|].
  destruct (N.eqb_spec x GT); [by repeat constructor|].
  by repeat constructor.
Qed.

(** No [<] and no [>] is left in an escaped text. *)
Lemma esc_no_markup s : Forall (fun ch => ch <> LT /\ ch <> GT) (esc s).
Proof.
  rewrite esc_flat_map. induction s as [|x s IH]; [constructor|].
  cbn [flat_map]. apply Forall_app. split; [apply entity_no_markup|exact IH].
Qed.

(** C8.  In the item that the feed holds for a change record, the title,
    the link, the guid and the description are escaped, and escaping
    rewrites every [&], [<] and [>] of the text to its entity and leaves no
    [<] nor [>]; a title that contains [<script>] is written with
    [&lt;script&gt;] in its place. *)
Theorem C8_feed_fields_escaped (pub_date : pystr) (c : ChangeRecord) :
  item_xml pub_date c
  = lit "  <item>" ++ [LF]
    ++ lit "    <title>" ++ flat_map entity (c_title c ++ lit " changed")
    ++ lit "</title>" ++ [LF]
    ++ lit "    <link>" ++ flat_map entity (c_url c) ++ lit "</link>" ++ [LF]
    ++ lit "    <guid isPermaLink=" ++ [QUOT] ++ lit "false" ++ [QUOT] ++ lit ">"
    ++ flat_map entity (item_guid c) ++ lit "</guid>" ++ [LF]
    ++ lit "    <pubDate>" ++ pub_date ++ lit "</pubDate>" ++ [LF]
    ++ lit "    <description>" ++ flat_map entity (item_desc c)
    ++ lit "</description>" ++ [LF]
    ++ lit "  </item>"
  /\ (forall s, esc s = flat_map entity s)
  /\ (entity AMP = lit "&amp;" /\ entity LT = lit "&lt;" /\ entity GT = lit "&gt;")
  /\ (forall ch, ch <> AMP -> ch <> LT -> ch <> GT -> entity ch = [ch])
  /\ (forall s, Forall (fun ch => ch <> LT /\ ch <> GT) (esc s))
  /\ (forall before after,
        c_title c = before ++ lit "<script>" ++ after ->
        esc (item_title c)
        = esc before ++ lit "&lt;script&gt;" ++ esc after ++ lit " changed").
Proof.
  split; [|split; [|split; [|split; [|split]]]].
  - unfold item_xml, item_title, item_link. by rewrite !esc_flat_map.
  - apply esc_flat_map.
  - done.
  - intros ch Hamp Hlt Hgt. unfold entity.
    destruct (N.eqb_spec ch AMP); [done|].
    destruct (N.eqb_spec ch LT); [done|].
    by destruct (N.eqb_spec ch GT).
  - apply esc_no_markup.
  - intros before after Htitle. unfold item_title.
    rewrite Htitle, <- !app_assoc, !esc_app. reflexivity.
Qed.

(** ** The guid of an item *)

Lemma py_int_floor (x : Q) : (0 <= x)%Q -> py_int x = Qfloor x.
Proof.
  destruct x as [n d]. unfold Qle, py_int, Qfloor. cbn [Qnum Qden].
  intros Hx. apply Z.quot_div_nonneg; lia.
Qed.

(** C10.  The guid of a feed item is the id of the target, a colon and the
    integer part of the timestamp of the record, which is its floor for a
    timestamp that is not negative; the item holds it escaped.  Hence two
    records of one target whose timestamps have the same integer part
    have the same guid, and there are such records with different
    timestamps. *)
Theorem C10_guid_is_id_and_second (pub_date : pystr) (c c' : ChangeRecord) :
  item_guid c = c_id c ++ lit ":" ++ str_of_int (py_int (c_timestamp c))
  /\ ((0 <= c_timestamp c)%Q -> py_int (c_timestamp c) = Qfloor (c_timestamp c))
  /\ (exists before after,
        item_xml pub_date c
        = before ++ lit "<guid isPermaLink=" ++ [QUOT] ++ lit "false" ++ [QUOT]
          ++ lit ">" ++ esc (item_guid c) ++ lit "</guid>" ++ after)
  /\ (c_id c = c_id c' ->
      py_int (c_timestamp c) = py_int (c_timestamp c') ->
      item_guid c = item_guid c')
  /\ (exists c1 c2 : ChangeRecord,
        c_id c1 = c_id c2
        /\ ~ (c_timestamp c1 == c_timestamp c2)%Q
        /\ item_guid c1 = item_guid c2).
Proof.
  split; [done|]. split; [apply py_int_floor|]. split; [|split].
  - eexists (lit "  <item>" ++ [LF] ++ lit "    <title>" ++ esc (item_title c)
             ++ lit "</title>" ++ [LF] ++ lit "    <link>" ++ esc (item_link c)
             ++ lit "</link>" ++ [LF] ++ lit "    "), _.
    unfold item_xml. rewrite <- !app_assoc. reflexivity.
  - unfold item_guid. by intros -> ->.
  - exists {| c_id := lit "a"; c_url := []; c_title := []; c_timestamp := 1001 # 10;
              c_hash := []; c_summary := None |},
           {| c_id := lit "a"; c_url := []; c_title := []; c_timestamp := 1007 # 10;
              c_hash := []; c_summary := None |}.
    split; [done|]. split; [|done]. unfold Qeq. cbn. lia.
Qed.

(** ** The diff preview *)

Lemma preview_loop_spec diff : forall i preview,
  i <= 21 ->
  preview_loop i diff preview
  = preview ++ (if 21 - i <? length diff
                then take (21 - i) diff ++ [truncation_marker]
                else diff).
Proof.
  induction diff as [|line rest IH]; intros i preview Hi; cbn [preview_loop].
  - destruct (Nat.ltb_spec (21 - i) (length (@nil pystr))) as [Hlt|_];
      [cbn in Hlt; lia | by rewrite app_nil_r].
  - destruct (Nat.ltb_spec 20 i) as [Hlast|Hmore].
    + replace (21 - i) with 0 by lia. reflexivity.
    + rewrite IH by lia. rewrite <- app_assoc. f_equal.
      replace (21 - i) with (S (21 - S i)) by lia. cbn [length take].
      change (S (21 - S i) <? S (length rest)) with (21 - S i <? length rest).
      by destruct (21 - S i <? length rest).
Qed.

Lemma preview_of_diff diff :
  preview_loop 0 diff []
  = if 21 <? length diff then take 21 diff ++ [truncation_marker] else diff.
Proof. by rewrite preview_loop_spec by lia. Qed.

Lemma join_cons2 sep a b rest :
  join sep (a :: b :: rest) = a ++ sep ++ join sep (b :: rest).
Proof. reflexivity. Qed.

(** A text joined from lines is empty only for no line, or one empty
    line. *)
Lemma join_empty sep lines :
  sep <> [] -> join sep lines = [] -> lines = [] \/ lines = [[]].
Proof.
  intros Hsep. destruct lines as [|a [|b rest]]; [by left| |].
  - cbn. intros ->. by right.
  - rewrite join_cons2. intros Hnil.
    apply app_eq_nil in Hnil as [_ Hnil].
    by apply app_eq_nil in Hnil as [? _].
Qed.

Lemma join_ends_with sep lines final :
  exists before, join sep (lines ++ [final]) = before ++ final.
Proof.
  induction lines as [|a lines (before & IH)]; [by exists []|].
  destruct lines as [|b lines].
  - exists (a ++ sep). cbn. by rewrite <- app_assoc.
  - exists (a ++ sep ++ before).
    change ((a :: b :: lines) ++ [final]) with (a :: b :: (lines ++ [final])).
    rewrite join_cons2. change (b :: (lines ++ [final])) with ((b :: lines) ++ [final]).
    by rewrite IH, <- !app_assoc.
Qed.

Lemma truthy_app_r a b : truthy b = true -> truthy (a ++ b) = true.
Proof. destruct a; [done|]. done. Qed.

(** C5.  When the diff has more than 21 lines, the preview is its first 21
    lines followed by the truncation marker, once, and the summary is
    these 22 lines joined; when the diff has 21 lines or fewer, the
    preview is the diff itself, without a marker, and the summary is the
    lines of the diff joined (the fallback text standing for a text that is
    empty). *)
Theorem C5_diff_preview_truncated (diff : list pystr) :
  (21 < length diff ->
     preview_loop 0 diff [] = take 21 diff ++ [truncation_marker]
     /\ summary_of_diff diff = join [LF] (take 21 diff ++ [truncation_marker]))
  /\ (length diff <= 21 ->
        preview_loop 0 diff [] = diff
        /\ summary_of_diff diff = py_or_str (join [LF] diff) fallback_summary
        /\ (diff <> [] -> diff <> [[]] -> summary_of_diff diff = join [LF] diff)).
Proof.
  unfold summary_of_diff. rewrite preview_of_diff. split; intros Hlen.
  - destruct (Nat.ltb_spec 21 (length diff)) as [_|?]; [|lia].
    split; [done|].
    destruct (join_ends_with [LF] (take 21 diff) truncation_marker) as (before & ->).
    unfold py_or_str. by rewrite truthy_app_r.
  - destruct (Nat.ltb_spec 21 (length diff)) as [?|_]; [lia|].
    split; [done|]. split; [done|].
    intros Hne Hne'. unfold py_or_str.
    destruct (join [LF] diff) as [|ch text] eqn:Hjoin; [|done].
    by destruct (join_empty [LF] diff ltac:(done) Hjoin).
Qed.

(** ** Sorting by timestamp *)

Lemma insert_desc_perm (x : ChangeRecord) l :
  Permutation (insert_desc c_timestamp x l) (x :: l).
Proof.
  induction l as [|y l IH]; [done|].
  cbn [insert_desc]. destruct (negb _); [|done].
  rewrite IH. apply perm_swap.
Qed.

Lemma insert_desc_sorted (x : ChangeRecord) l :
  StronglySorted newer_first l ->
  StronglySorted newer_first (insert_desc c_timestamp x l).
Proof.
  induction 1 as [|y l Hl IH Hy]; [by repeat constructor|].
  cbn [insert_desc].
  destruct (Qle_bool (c_timestamp y) (c_timestamp x)) eqn:Hle; cbn [negb].
  - apply Qle_bool_iff in Hle.
    constructor; [by constructor|]. constructor; [exact Hle|].
    eapply Forall_impl; [exact Hy|]. intros z Hz.
    unfold newer_first in *. by eapply Qle_trans.
  - assert (newer_first y x) as Hyx.
    { unfold newer_first. apply Qlt_le_weak, Qnot_le_lt.
      intros Hc. apply Qle_bool_iff in Hc. congruence. }
    constructor; [exact IH|].
    eapply Permutation_Forall; [symmetry; apply insert_desc_perm|].
    by constructor.
Qed.

Lemma py_sorted_reverse_perm (l : list ChangeRecord) :
  Permutation (py_sorted_reverse c_timestamp l) l.
Proof.
  induction l as [|x l IH]; [done|].
  cbn [py_sorted_reverse foldr]. rewrite insert_desc_perm.
  by constructor.
Qed.

Lemma py_sorted_reverse_sorted (l : list ChangeRecord) :
  StronglySorted newer_first (py_sorted_reverse c_timestamp l).
Proof.
  induction l as [|x l IH]; [constructor|].
  by apply insert_desc_sorted.
Qed.

(** Sorting keeps a list that is already newest first as it is. *)
Lemma py_sorted_reverse_id (l : list ChangeRecord) :
  StronglySorted newer_first l -> py_sorted_reverse c_timestamp l = l.
Proof.
  induction 1 as [|x l Hl IH Hx]; [done|].
  cbn [py_sorted_reverse foldr]. fold (py_sorted_reverse c_timestamp l).
  rewrite IH. destruct Hx as [|y l Hy _]; [done|].
  cbn [insert_desc]. apply Qle_bool_iff in Hy. by rewrite Hy.
Qed.

(** The first [n] records of the sorted log are its most recent ones. *)
Lemma top_most_recent n (l : list ChangeRecord) :
  let sorted := py_sorted_reverse c_timestamp l in
  length (take n sorted) = n `min` length l
  /\ StronglySorted newer_first (take n sorted)
  /\ most_recent_of l (take n sorted) (drop n sorted).
Proof.
  intros sorted.
  pose proof (py_sorted_reverse_sorted l) as Hsorted. fold sorted in Hsorted.
  pose proof (py_sorted_reverse_perm l) as Hperm. fold sorted in Hperm.
  rewrite <- (take_drop n sorted) in Hsorted.
  split; [|split; [|split]].
  - rewrite length_take. by rewrite (Permutation_length Hperm).
  - by apply StronglySorted_app_1_l in Hsorted.
  - by rewrite take_drop.
  - apply Forall_forall. intros k Hk. apply Forall_forall. intros x Hx.
    eapply StronglySorted_app_1_elem_of; [exact Hsorted|done|done].
Qed.

Lemma bounded_log_bounded (l : list ChangeRecord) : log_bounded (bounded_log l).
Proof.
  unfold log_bounded, bounded_log. destruct (top_most_recent 1000 l) as (Hlen & Hs & _).
  split; [|exact Hs]. rewrite Hlen. lia.
Qed.

(** The feed of a bounded log shows the records that the feed of the whole
    log shows. *)
Lemma feed_records_bounded_log (l : list ChangeRecord) :
  feed_records (bounded_log l) = feed_records l.
Proof.
  unfold feed_records, bounded_log.
  rewrite py_sorted_reverse_id by apply top_most_recent.
  by rewrite take_take.
Qed.

(** ** One target *)

Lemma success_is_not_304 status :
  is_success status = true -> (status =? 304)%Z = false.
Proof. unfold is_success. intros Hs. apply Z.eqb_neq. lia. Qed.

Lemma snapshot_names_differ ts :
  snapshot_name ts (lit ".txt") <> snapshot_name ts (lit ".html").
Proof. unfold snapshot_name. intros Heq. by apply app_inv_head in Heq. Qed.

Section OneTarget.
Context `{External}.
Variable env : Env.
Variable entry : Entry.
Variable prev : TargetState.
Variable resp : Response.
Variable r : Run.

Lemma handle_response_skip :
  (status_code resp = 304 \/ ~ (200 <= status_code resp < 300))%Z ->
  handle_response env entry prev resp r = r.
Proof.
  unfold handle_response, is_success. intros [->|Hout]; [done|].
  destruct (status_code resp =? 304)%Z; [done|].
  destruct (Z.leb_spec 200 (status_code resp)); [|done].
  destruct (Z.ltb_spec (status_code resp) 300); [lia|done].
Qed.

Lemma handle_response_changed :
  is_success (status_code resp) = true ->
  st_hash prev <> Some (sha256 (clean_html (text resp) (e_selector entry))) ->
  handle_response env entry prev resp r
  = record_change env entry prev resp
      (clean_html (text resp) (e_selector entry))
      (sha256 (clean_html (text resp) (e_selector entry))) r.
Proof.
  unfold handle_response. intros Hok Hneq.
  rewrite (success_is_not_304 _ Hok), Hok. cbn [negb].
  by rewrite bool_decide_eq_false_2.
Qed.

Lemma handle_response_same :
  is_success (status_code resp) = true ->
  st_hash prev = Some (sha256 (clean_html (text resp) (e_selector entry))) ->
  handle_response env entry prev resp r
  = refresh_validators entry prev resp
      (sha256 (clean_html (text resp) (e_selector entry))) r.
Proof.
  unfold handle_response. intros Hok Heq.
  rewrite (success_is_not_304 _ Hok), Hok. cbn [negb].
  by rewrite bool_decide_eq_true_2.
Qed.

(** The flag is set in one branch only, and never cleared. *)
Lemma handle_response_flag :
  something_changed r = true ->
  something_changed (handle_response env entry prev resp r) = true.
Proof.
  unfold handle_response. intros Hflag.
  repeat (case_match; try done).
Qed.

End OneTarget.

Lemma py_or_spec (supplied previous : option pystr) :
  (forall v, supplied = Some v -> v <> [] -> py_or supplied previous = Some v)
  /\ (supplied = None \/ supplied = Some [] -> py_or supplied previous = previous).
Proof.
  split.
  - intros v -> Hv. by destruct v.
  - by intros [->| ->].
Qed.

Section Visit.
Context `{External}.

(** C1.  When the response of a target is a success and the hash of its
    normalized text is not the stored one, which is the case in particular
    when the state holds no record of the target, the visit appends one
    change record of that target to the log, writes the normalized text
    and the raw text as two snapshot files named by the second of the
    change, and stores for the target the new hash, the validators of the
    response and the name of the new text snapshot. *)
Theorem C1_change_recorded (env : Env) (i : nat) (entry : Entry) (r : Run) :
  let uid := e_id entry in
  let prev := default no_state (state r !! uid) in
  let resp := fetch_with_conditionals env i (e_url entry) prev in
  let content := clean_html (text resp) (e_selector entry) in
  let h := sha256 content in
  let ts := time_time env (clock_reads r) in
  let r' := visit env i entry r in
  (200 <= status_code resp < 300)%Z ->
  (state r !! uid = None \/ st_hash prev <> Some h) ->
  (exists summary,
      changes r'
      = changes r ++ [{| c_id := uid; c_url := e_url entry;
                         c_title := default (e_url entry) (e_title entry);
                         c_timestamp := ts; c_hash := h;
                         c_summary := Some summary |}])
  /\ snap_files r' !! (uid, snapshot_name ts (lit ".txt")) = Some content
  /\ snap_files r' !! (uid, snapshot_name ts (lit ".html")) = Some (text resp)
  /\ (forall path,
        path <> (uid, snapshot_name ts (lit ".txt")) ->
        path <> (uid, snapshot_name ts (lit ".html")) ->
        snap_files r' !! path = snap_files r !! path)
  /\ state r' !! uid
     = Some {| st_hash := Some h;
               st_etag := header_ETag resp;
               st_last_modified := header_Last_Modified resp;
               st_last_text_file := Some (snapshot_name ts (lit ".txt")) |}
  /\ (forall other, other <> uid -> state r' !! other = state r !! other)
  /\ something_changed r' = true.
Proof.
  intros uid prev resp content h ts r' Hok Hchanged.
  assert (st_hash prev <> Some h) as Hneq.
  { destruct Hchanged as [Hnone|Hneq]; [|exact Hneq].
    subst prev. by rewrite Hnone. }
  assert (r' = record_change env entry prev resp content h r) as ->.
  { apply handle_response_changed; [|exact Hneq]. unfold is_success. lia. }
  unfold record_change. cbn [changes snap_files state something_changed].
  fold uid. fold ts.
  split; [by eexists|]. split; [|split; [|split; [|split; [|split]]]].
  - rewrite lookup_insert_ne, lookup_insert_eq; [done|].
    intros [=Heq]. by apply (snapshot_names_differ ts).
  - by rewrite lookup_insert_eq.
  - intros path Htxt Hhtml. by rewrite !lookup_insert_ne.
  - by rewrite lookup_insert_eq.
  - intros other Hother. by rewrite lookup_insert_ne.
  - done.
Qed.

(** C3.  When the response of a target is 304 or any status outside the
    range 200..299, the visit leaves the run as it is: the state of every
    target, the log, the snapshot files and the flag; and the loop goes on
    with the next target. *)
Theorem C3_target_skipped (env : Env) (i : nat) (entry : Entry)
    (rest : list Entry) (r : Run) :
  let prev := default no_state (state r !! e_id entry) in
  let resp := fetch_with_conditionals env i (e_url entry) prev in
  (status_code resp = 304 \/ ~ (200 <= status_code resp < 300))%Z ->
  visit env i entry r = r
  /\ state (visit env i entry r) !! e_id entry = state r !! e_id entry
  /\ changes (visit env i entry r) = changes r
  /\ snap_files (visit env i entry r) = snap_files r
  /\ for_each_entry env i (entry :: rest) r = for_each_entry env (S i) rest r.
Proof.
  intros prev resp Hskip.
  assert (visit env i entry r = r) as Hsame
    by (by apply handle_response_skip).
  cbn [for_each_entry]. by rewrite !Hsame.
Qed.

(** C4, as amended.  When the response of a target is a success and the
    hash of its normalized text is the stored one, the visit stores for
    the target the same hash and the same snapshot pointer, and each
    validator of the response when the response has one that is not the
    empty string, the stored validator otherwise; the state of the other
    targets, the log and the snapshot files are as before. *)
Theorem C4_validators_refreshed (env : Env) (i : nat) (entry : Entry) (r : Run) :
  let uid := e_id entry in
  let prev := default no_state (state r !! uid) in
  let resp := fetch_with_conditionals env i (e_url entry) prev in
  let h := sha256 (clean_html (text resp) (e_selector entry)) in
  let r' := visit env i entry r in
  (200 <= status_code resp < 300)%Z ->
  st_hash prev = Some h ->
  exists stored,
    state r' !! uid = Some stored
    /\ st_hash stored = st_hash prev
    /\ st_last_text_file stored = st_last_text_file prev
    /\ (forall v, header_ETag resp = Some v -> v <> [] -> st_etag stored = Some v)
    /\ (header_ETag resp = None \/ header_ETag resp = Some [] ->
        st_etag stored = st_etag prev)
    /\ (forall v, header_Last_Modified resp = Some v -> v <> [] ->
                  st_last_modified stored = Some v)
    /\ (header_Last_Modified resp = None \/ header_Last_Modified resp = Some [] ->
        st_last_modified stored = st_last_modified prev)
    /\ (forall other, other <> uid -> state r' !! other = state r !! other)
    /\ changes r' = changes r
    /\ snap_files r' = snap_files r
    /\ something_changed r' = something_changed r.
Proof.
  intros uid prev resp h r' Hok Hsame.
  assert (r' = refresh_validators entry prev resp h r) as ->.
  { apply handle_response_same; [|exact Hsame]. unfold is_success. lia. }
  unfold refresh_validators. cbn [changes snap_files state something_changed].
  fold uid. eexists. split; [apply lookup_insert_eq|].
  cbn [st_hash st_etag st_last_modified st_last_text_file].
  destruct (py_or_spec (header_ETag resp) (st_etag prev)) as [? ?].
  destruct (py_or_spec (header_Last_Modified resp) (st_last_modified prev)) as [? ?].
  repeat split; try done.
  intros other Hother. by rewrite lookup_insert_ne.
Qed.

(** C6, as amended.  When a change is detected and the new snapshot pair
    does not take the name that the stored pointer holds (the change does
    not fall in the second of the previous snapshot; that case is left
    aside), the summary of its record is the unified diff, truncated,
    between the text of the previous snapshot and the current normalized
    text, as soon as the stored pointer is not empty and names a snapshot
    file of the target whose text is not empty.  The fallback text is the
    summary in three cases only: there is no previous snapshot (no
    pointer, or no such file), the text of the previous snapshot is empty,
    or the text of the diff is empty. *)
Theorem C6_summary_of_change (env : Env) (i : nat) (entry : Entry) (r : Run) :
  let uid := e_id entry in
  let prev := default no_state (state r !! uid) in
  let resp := fetch_with_conditionals env i (e_url entry) prev in
  let content := clean_html (text resp) (e_selector entry) in
  let ts := time_time env (clock_reads r) in
  let r' := visit env i entry r in
  let old := read_old_text (snap_files r) uid prev in
  let diff := unified_diff (splitlines (default [] old)) (splitlines content)
                (lit "before") (lit "after") [] in
  (200 <= status_code resp < 300)%Z ->
  st_hash prev <> Some (sha256 content) ->
  st_last_text_file prev <> Some (snapshot_name ts (lit ".txt")) ->
  st_last_text_file prev <> Some (snapshot_name ts (lit ".html")) ->
  exists c,
    changes r' = changes r ++ [c]
    /\ (forall name old_text,
          st_last_text_file prev = Some name -> name <> [] ->
          snap_files r !! (uid, name) = Some old_text -> old_text <> [] ->
          c_summary c
          = Some (summary_of_diff
                    (unified_diff (splitlines old_text) (splitlines content)
                       (lit "before") (lit "after") [])))
    /\ (truthy_opt old = false <->
        st_last_text_file prev = None \/ st_last_text_file prev = Some []
        \/ snap_files r !! (uid, default [] (st_last_text_file prev)) = None
        \/ snap_files r !! (uid, default [] (st_last_text_file prev)) = Some [])
    /\ (truthy_opt old = false -> c_summary c = Some fallback_summary)
    /\ (truthy_opt old = true -> join [LF] (preview_loop 0 diff []) = [] ->
        c_summary c = Some fallback_summary)
    /\ (truthy_opt old = true -> join [LF] (preview_loop 0 diff []) <> [] ->
        c_summary c = Some (join [LF] (preview_loop 0 diff []))).
Proof.
  intros uid prev resp content ts r' old diff Hok Hneq Htxt Hhtml.
  assert (r' = record_change env entry prev resp content (sha256 content) r) as Hr'.
  { apply handle_response_changed; [|exact Hneq]. unfold is_success. lia. }
  rewrite Hr'. unfold record_change. cbn [changes]. fold uid. fold ts.
  set (files := <[(uid, snapshot_name ts (lit ".html")) := text resp]>
                  (<[(uid, snapshot_name ts (lit ".txt")) := content]> (snap_files r))).
  assert (read_old_text files uid prev = old) as Hread.
  { subst old. unfold read_old_text.
    destruct (st_last_text_file prev) as [name|] eqn:Hname; [|done].
    cbn [from_option id]. destruct (truthy_opt (Some name)); [|done].
    unfold files. rewrite !lookup_insert_ne; [done| |]; intros [=Heq]; congruence. }
  rewrite Hread. eexists. split; [reflexivity|]. cbn [c_summary].
  split; [|split; [|split; [|split]]].
  - intros name old_text Hname Hne Hfile Hold.
    subst old. unfold summarize, read_old_text. rewrite Hname.
    cbn [truthy_opt from_option id].
    destruct name as [|ch name]; [done|]. cbn [truthy]. rewrite Hfile.
    destruct old_text as [|ch' old_text]; [done|]. reflexivity.
  - subst old. unfold read_old_text.
    destruct (st_last_text_file prev) as [[|ch name]|];
      cbn [truthy_opt truthy from_option id].
    + intuition congruence.
    + destruct (snap_files r !! (uid, ch :: name)) as [[|ch' old_text]|];
        cbn [truthy_opt truthy]; intuition congruence.
    + intuition congruence.
  - intros Hold. unfold summarize. by rewrite Hold.
  - intros Hold Hempty. unfold summarize, summary_of_diff.
    fold diff. rewrite Hold, Hempty. done.
  - intros Hold Hfull. unfold summarize, summary_of_diff. fold diff. rewrite Hold.
    by destruct (join [LF] _).
Qed.
End Visit.

(** ** The whole run *)

Section WholeRun.
Context `{External}.

Lemma for_each_flag env urls : forall i r,
  something_changed r = true ->
  something_changed (for_each_entry env i urls r) = true.
Proof.
  induction urls as [|entry rest IH]; intros i r Hflag; [done|].
  cbn [for_each_entry]. apply IH. by apply handle_response_flag.
Qed.


Lemma generate_feed_writes env k cs d :
  generate_feed env k cs d
  = write_feed d
      (feed_document
         (rfc2822_now env (items_loop env k (feed_records cs)).2 None).1
         (items_loop env k (feed_records cs)).1).
Proof.
  unfold generate_feed.
  destruct (items_loop env k (feed_records cs)) as [items_xml k1]. cbn [fst snd].
  by destruct (rfc2822_now env k1 None).
Qed.


Lemma ensure_index_html_keeps d :
  CHANGES_FILE (ensure_index_html d) = CHANGES_FILE d
  /\ STATE_FILE (ensure_index_html d) = STATE_FILE d
  /\ is_Some (INDEX_FILE (ensure_index_html d)).
Proof. unfold ensure_index_html. by destruct (INDEX_FILE d) eqn:Hidx; rewrite ?Hidx. Qed.

(** What a run leaves in the change log file. *)
Lemma main_log env d :
  CHANGES_FILE (main env d)
  = if something_changed (after_loop env d)
    then Some (bounded_log (changes (after_loop env d)))
    else CHANGES_FILE d.
Proof.
  unfold main.
  destruct (something_changed (after_loop env d));
    rewrite generate_feed_writes; cbn [write_feed CHANGES_FILE];
    by rewrite (proj1 (ensure_index_html_keeps _)).
Qed.


(** C2.  A run in which a change is detected writes the change log; the
    written log is the in-memory log sorted by timestamp, newest first,
    and cut to its first 1000 records: it has at most 1000 records, it is
    sorted newest first, and its records are the most recent ones of the
    in-memory log.  A run without a change leaves the file as it is.
    Hence, after any number of runs, the file is the one that was there
    before the first run, or it was written by a run and is within the
    bound and sorted. *)
Theorem C2_change_log_bounded :
  (forall env d,
     something_changed (after_loop env d) = true ->
     exists written,
       CHANGES_FILE (main env d) = Some written
       /\ written = bounded_log (changes (after_loop env d))
       /\ length written <= 1000
       /\ StronglySorted newer_first written
       /\ most_recent_of (changes (after_loop env d)) written
            (drop 1000 (py_sorted_reverse c_timestamp (changes (after_loop env d)))))
  /\ (forall env d,
        something_changed (after_loop env d) = false ->
        CHANGES_FILE (main env d) = CHANGES_FILE d)
  /\ (forall envs d,
        CHANGES_FILE (runs envs d) = CHANGES_FILE d
        \/ exists written,
             CHANGES_FILE (runs envs d) = Some written /\ log_bounded written).
Proof.
  split; [|split].
  - intros env d Hflag. rewrite main_log, Hflag. eexists. split; [done|].
    split; [done|].
    destruct (bounded_log_bounded (changes (after_loop env d))) as [? ?].
    repeat split; try done; apply top_most_recent.
  - intros env d Hflag. by rewrite main_log, Hflag.
  - induction envs as [|env later IH]; intros d; [by left|].
    cbn [runs]. destruct (IH (main env d)) as [->|Hwritten]; [|by right].
    rewrite main_log. destruct (something_changed (after_loop env d)); [|by left].
    right. eexists. split; [done|]. apply bounded_log_bounded.
Qed.





End WholeRun.

(** ** The script on concrete inputs *)

Section Concrete.
Local Existing Instance plain_text.

(** The end-to-end scenario: a first run fetches "Hello", a second run is
    answered 304, a third run fetches "Hello world". *)
Example three_runs :
  let first := constant_world (ok_response None (lit "Hello")) (100 # 1) in
  let second :=
    constant_world {| status_code := 304; header_ETag := None;
                      header_Last_Modified := None; text := [] |} (150 # 1) in
  let third := constant_world (ok_response None (lit "Hello world")) (200 # 1) in
  let d1 := main first empty_disk in
  let d2 := main second d1 in
  let d3 := runs [first; second; third] empty_disk in
  (st_hash <$> (load_json (STATE_FILE d1) ∅ !! lit "a")) = Some (Some (lit "Hello"))
  /\ length (load_json (CHANGES_FILE d1) []) = 1
  /\ SNAPSHOTS d1 !! (lit "a", lit "100.txt") = Some (lit "Hello")
  /\ SNAPSHOTS d1 !! (lit "a", lit "100.html") = Some (lit "Hello")
  /\ STATE_FILE d2 = STATE_FILE d1
  /\ CHANGES_FILE d2 = CHANGES_FILE d1
  /\ SNAPSHOTS d2 = SNAPSHOTS d1
  /\ (st_hash <$> (load_json (STATE_FILE d3) ∅ !! lit "a"))
     = Some (Some (lit "Hello world"))
  /\ (c_summary <$> load_json (CHANGES_FILE d3) [])
     = [ Some (lit "--- before" ++ [LF] ++ lit "+++ after" ++ [LF]
               ++ lit "@@ -1 +1 @@" ++ [LF] ++ lit "-Hello" ++ [LF]
               ++ lit "+Hello world");
         Some (lit "Content changed.") ].
Proof.
  intros first second third d1 d2 d3.
  repeat apply conj; vm_compute; reflexivity.
Qed.

Lemma C1_change_recorded_witness :
  let env := constant_world (ok_response (Some (lit "v1")) (lit "Hello")) (100 # 1) in
  let r' := visit env 0 watch_a fresh_run in
  state fresh_run !! e_id watch_a = None
  /\ state r' !! lit "a"
     = Some {| st_hash := Some (lit "Hello"); st_etag := Some (lit "v1");
               st_last_modified := None;
               st_last_text_file := Some (lit "100.txt") |}
  /\ snap_files r' !! (lit "a", lit "100.txt") = Some (lit "Hello")
  /\ snap_files r' !! (lit "a", lit "100.html") = Some (lit "Hello")
  /\ length (changes r') = 1.
Proof.
  intros env r'. split; [reflexivity|].
  destruct (C1_change_recorded env 0 watch_a fresh_run)
    as ((summary & Hlog) & Htxt & Hhtml & _ & Hstate & _).
  - cbn. lia.
  - left. reflexivity.
  - split; [exact Hstate|]. split; [exact Htxt|]. split; [exact Hhtml|].
    fold r' in Hlog. rewrite Hlog. reflexivity.
Defined.

Lemma C2_change_log_bounded_witness :
  let env := constant_world (ok_response None (lit "Hello")) (100 # 1) in
  something_changed (after_loop env empty_disk) = true
  /\ exists written,
       CHANGES_FILE (main env empty_disk) = Some written
       /\ length written <= 1000.
Proof.
  intros env. split; [reflexivity|].
  destruct (proj1 C2_change_log_bounded env empty_disk eq_refl)
    as (written & Hfile & _ & Hlen & _).
  exists written. split; [exact Hfile|exact Hlen].
Defined.

Lemma C3_target_skipped_witness :
  let env :=
    constant_world {| status_code := 503; header_ETag := None;
                      header_Last_Modified := None; text := lit "busy" |} (100 # 1) in
  ~ (200 <= 503 < 300)%Z
  /\ visit env 0 watch_a fresh_run = fresh_run.
Proof.
  intros env. split; [lia|].
  apply (C3_target_skipped env 0 watch_a [] fresh_run).
  right. cbn. lia.
Defined.

Lemma C4_validators_refreshed_witness :
  let env := constant_world (ok_response (Some (lit "v2")) (lit "Hello")) (100 # 1) in
  let r := run_from (known_state (lit "Hello") (Some (lit "v1")) None) ∅ in
  st_hash (default no_state (state r !! lit "a")) = Some (lit "Hello")
  /\ exists stored,
       state (visit env 0 watch_a r) !! lit "a" = Some stored
       /\ st_etag stored = Some (lit "v2")
       /\ st_hash stored = Some (lit "Hello").
Proof.
  intros env r. split; [reflexivity|].
  destruct (C4_validators_refreshed env 0 watch_a r)
    as (stored & Hstate & Hhash & _ & Hetag & _).
  - cbn. lia.
  - reflexivity.
  - exists stored. split; [exact Hstate|]. split; [|exact Hhash].
    by apply Hetag.
Defined.

Lemma C5_diff_preview_truncated_witness :
  let long := replicate 30 (lit "+x") in
  let short := [lit "--- before"; lit "+++ after"; lit "@@ -1 +1 @@"; lit "-a"; lit "+b"] in
  21 < length long
  /\ preview_loop 0 long [] = replicate 21 (lit "+x") ++ [truncation_marker]
  /\ length short <= 21
  /\ summary_of_diff short = join [LF] short.
Proof.
  intros long short.
  destruct (C5_diff_preview_truncated long) as [Hlong _].
  destruct (C5_diff_preview_truncated short) as [_ Hshort].
  split; [cbn; lia|]. split; [apply Hlong; cbn; lia|].
  split; [cbn; lia|]. apply Hshort; [cbn; lia|done|done].
Defined.

Lemma C6_summary_of_change_witness :
  let env := constant_world (ok_response None (lit "Hello world")) (200 # 1) in
  let r := run_from (known_state (lit "Hello") None (Some (lit "100.txt")))
             {[ (lit "a", lit "100.txt") := lit "Hello" ]} in
  st_hash (default no_state (state r !! lit "a")) <> Some (lit "Hello world")
  /\ Some (lit "100.txt") <> Some (snapshot_name (200 # 1) (lit ".txt"))
  /\ exists c,
       changes (visit env 0 watch_a r) = [c]
       /\ c_summary c
          = Some (lit "--- before" ++ [LF] ++ lit "+++ after" ++ [LF]
                  ++ lit "@@ -1 +1 @@" ++ [LF] ++ lit "-Hello" ++ [LF]
                  ++ lit "+Hello world").
Proof.
  intros env r. split; [done|]. split; [done|].
  destruct (C6_summary_of_change env 0 watch_a r) as (c & Hlog & Hdiff & _).
  - cbn. lia.
  - done.
  - done.
  - done.
  - exists c. split; [exact Hlog|].
    by apply (Hdiff (lit "100.txt") (lit "Hello")).
Defined.

Lemma C7_clean_html_normalizes_witness :
  let html := lit "  Hello  " ++ [TAB] ++ lit " world " ++ [LF; LF; LF] ++ lit " bye  " in
  clean_html html (Some (lit "p")) = []
  /\ normalized_from html (clean_html html (Some (lit "body")))
  /\ normalized_from html (clean_html html None)
  /\ well_spaced (clean_html html None)
  /\ clean_html html None = lit "Hello world " ++ [LF] ++ lit " bye".
Proof.
  intros html.
  destruct (C7_clean_html_normalizes html (Some (lit "p"))) as (Hmiss & _).
  destruct (C7_clean_html_normalizes html (Some (lit "body"))) as (_ & Hhit & _).
  destruct (C7_clean_html_normalizes html None) as (_ & _ & Hall & Hspaced).
  split; [by apply Hmiss|]. split; [by apply (Hhit html)|].
  split; [by apply Hall|]. split; [exact Hspaced|reflexivity].
Defined.

Lemma C8_feed_fields_escaped_witness :
  let c := {| c_id := lit "a"; c_url := lit "https://example.com/?x=1&y=2";
              c_title := lit "News <script>alert(1)</script>";
              c_timestamp := 100 # 1; c_hash := []; c_summary := None |} in
  c_title c = lit "News " ++ lit "<script>" ++ lit "alert(1)</script>"
  /\ esc (item_title c) = lit "News &lt;script&gt;alert(1)&lt;/script&gt; changed"
  /\ esc (item_link c) = lit "https://example.com/?x=1&amp;y=2".
Proof.
  intros c.
  destruct (C8_feed_fields_escaped [] c) as (_ & _ & _ & _ & _ & Hscript).
  split; [reflexivity|]. split; [|reflexivity].
  by rewrite (Hscript (lit "News ") (lit "alert(1)</script>")).
Defined.

Lemma C10_guid_is_id_and_second_witness :
  let c1 := {| c_id := lit "a"; c_url := []; c_title := []; c_timestamp := 1001 # 10;
               c_hash := []; c_summary := None |} in
  let c2 := {| c_id := lit "a"; c_url := []; c_title := []; c_timestamp := 1007 # 10;
               c_hash := []; c_summary := None |} in
  (0 <= c_timestamp c1)%Q
  /\ py_int (c_timestamp c1) = Qfloor (c_timestamp c1)
  /\ py_int (c_timestamp c1) = py_int (c_timestamp c2)
  /\ item_guid c1 = lit "a:100"
  /\ item_guid c1 = item_guid c2.
Proof.
  intros c1 c2.
  destruct (C10_guid_is_id_and_second [] c1 c2) as (_ & Hfloor & _ & Hsame & _).
  assert (0 <= c_timestamp c1)%Q as Hpos by done.
  split; [exact Hpos|]. split; [by apply Hfloor|]. split; [reflexivity|].
  split; [reflexivity|]. by apply Hsame.
Defined.

(** The sentence on validators, as it is worded, fails when the server
    sends a validator that is the empty string: the visit keeps the stored
    one. *)
Lemma C4_empty_validator_is_not_stored :
  ~ validators_follow_presence
      (constant_world (ok_response (Some []) (lit "Hello")) (100 # 1)) 0 watch_a
      (run_from (known_state (lit "Hello") (Some (lit "v1")) None) ∅).
Proof.
  intros Hclaim.
  destruct Hclaim as (stored & Hstored & Hetag & _); [reflexivity|reflexivity|].
  vm_compute in Hstored. injection Hstored as <-.
  vm_compute in Hetag. discriminate.
Qed.

(** The sentence on the summary, as it is worded, fails when the previous
    snapshot exists and is empty: the summary is the fallback text, though
    the diff has four lines. *)
Lemma C6_empty_snapshot_gets_fallback :
  ~ diff_whenever_snapshot_exists
      (constant_world (ok_response None (lit "Hello")) (100 # 1)) 0 watch_a
      (run_from (known_state [] None (Some (lit "50.txt")))
         {[ (lit "a", lit "50.txt") := [] ]}).
Proof.
  intros Hclaim.
  destruct (Hclaim eq_refl ltac:(done) (lit "50.txt") [] eq_refl eq_refl)
    as (c & Hlast & Hsummary).
  vm_compute in Hlast. injection Hlast as <-.
  vm_compute in Hsummary. discriminate.
Qed.
(** The sentence on the normalizer, as it is worded, fails on a line that
    holds a space only and on whitespace other than space and tab: the
    two lines of one space and the two no-break spaces of this text are
    returned as they are. *)
Lemma C7_blank_lines_are_kept :
  let html := lit "a" ++ [LF; SPACE; LF; SPACE; LF] ++ lit "b"
              ++ [160%N; 160%N] ++ lit "c" in
  clean_html html None = html
  /\ blank_line_inside false (clean_html html None) = true
  /\ adjacent is_horizontal (clean_html html None) = true
  /\ ~ normalized_as_worded (clean_html html None).
Proof.
  intros html. repeat apply conj; try (vm_compute; reflexivity).
  intros (Hruns & _). vm_compute in Hruns. discriminate.
Qed.


End Concrete.

(** * Further properties of the script *)

(** ** The conditional request *)

(** X1.  The request for a target carries [If-None-Match] exactly when the
    stored etag is a string that is not empty, with that string, and
    [If-Modified-Since] likewise for the stored modification date; the two
    fixed headers are always there.  With no stored record, no
    conditional header is sent. *)
Theorem X1_conditional_headers (prev : TargetState) :
  exists headers,
    (forall env i url,
        fetch_with_conditionals env i url prev = requests_get env i url headers)
    /\ header_value (lit "If-None-Match") headers
       = (if truthy_opt (st_etag prev) then st_etag prev else None)
    /\ header_value (lit "If-Modified-Since") headers
       = (if truthy_opt (st_last_modified prev) then st_last_modified prev else None)
    /\ header_value (lit "User-Agent") headers
       = Some (lit "GitHubActions-PageWatcher/1.0 (+https://github.com/)")
    /\ header_value (lit "Accept") headers
       = Some (lit "text/html,application/xhtml+xml")
    /\ (prev = no_state -> length headers = 2).
Proof.
  eexists. split; [reflexivity|].
  destruct prev as [hash [[|c1 etag]|] [[|c2 modified]|] file];
    cbn [st_etag st_last_modified truthy_opt truthy conditional_header
         from_option id app];
    repeat split; try reflexivity; by intros [=].
Qed.

(** ** The landing page *)

Lemma ensure_index_html_page d :
  INDEX_FILE (ensure_index_html d) = Some (default index_page (INDEX_FILE d)).
Proof. unfold ensure_index_html. by destruct (INDEX_FILE d) eqn:Hidx. Qed.

(** X2.  [ensure_index_html] writes the landing page when there is none
    and leaves the files as they are when there is one; doing it twice is
    doing it once, and no other file is touched. *)
Theorem X2_landing_page_written_once (d : Disk) :
  (forall page, INDEX_FILE d = Some page -> ensure_index_html d = d)
  /\ (INDEX_FILE d = None -> INDEX_FILE (ensure_index_html d) = Some index_page)
  /\ ensure_index_html (ensure_index_html d) = ensure_index_html d
  /\ URLS_FILE (ensure_index_html d) = URLS_FILE d
  /\ STATE_FILE (ensure_index_html d) = STATE_FILE d
  /\ CHANGES_FILE (ensure_index_html d) = CHANGES_FILE d
  /\ SNAPSHOTS (ensure_index_html d) = SNAPSHOTS d
  /\ FEED_FILE (ensure_index_html d) = FEED_FILE d.
Proof.
  unfold ensure_index_html.
  destruct (INDEX_FILE d) as [page|] eqn:Hidx; cbn [INDEX_FILE];
    rewrite ?Hidx; repeat split; done.
Qed.

Lemma ensure_index_html_urls d :
  URLS_FILE (ensure_index_html d) = URLS_FILE d.
Proof. unfold ensure_index_html. by destruct (INDEX_FILE d). Qed.

Section LandingPage.
Context `{External}.

Lemma main_index env d :
  INDEX_FILE (main env d) = Some (default index_page (INDEX_FILE d))
  /\ URLS_FILE (main env d) = URLS_FILE d.
Proof.
  unfold main. destruct (something_changed (after_loop env d));
    rewrite generate_feed_writes; cbn [write_feed INDEX_FILE URLS_FILE];
    by rewrite ensure_index_html_page, ensure_index_html_urls.
Qed.

End LandingPage.

(** ** The summary of a change *)

Lemma preview_loop_lines diff :
  length (preview_loop 0 diff []) <= 22
  /\ Forall (fun line => line ∈ diff \/ line = truncation_marker)
       (preview_loop 0 diff []).
Proof.
  rewrite preview_of_diff. destruct (Nat.ltb_spec 21 (length diff)) as [Hlong|Hshort].
  - split.
    + rewrite length_app, length_take. cbn [length]. lia.
    + apply Forall_app. split; [|by repeat constructor].
      apply Forall_forall. intros line Hline. left.
      apply elem_of_take in Hline as (i & Hi & _).
      apply list_elem_of_lookup. by exists i.
  - split; [lia|]. apply Forall_forall. by left.
Qed.

Section Summary.
Context `{External}.

(** X4.  The summary of a change is never the empty text and never has
    more than 22 lines of the diff: whatever the previous text and the
    diff, [summarize] gives a text that is not empty, and the preview it
    joins holds at most 22 lines, each a line of the diff or the
    truncation marker. *)
Theorem X4_summary_never_empty (old_text : option pystr) (content : pystr)
    (diff : list pystr) :
  summarize old_text content <> []
  /\ summary_of_diff diff <> []
  /\ length (preview_loop 0 diff []) <= 22
  /\ Forall (fun line => line ∈ diff \/ line = truncation_marker)
       (preview_loop 0 diff []).
Proof.
  assert (forall d, summary_of_diff d <> []) as Hsum.
  { intros d. unfold summary_of_diff, py_or_str.
    by destruct (join [LF] (preview_loop 0 d [])). }
  split; [|split; [apply Hsum|apply preview_loop_lines]].
  unfold summarize. destruct (truthy_opt old_text); [apply Hsum|done].
Qed.
End Summary.

(** ** Escaping loses nothing *)

Lemma entity_prefix_free x y rest1 rest2 :
  entity x ++ rest1 = entity y ++ rest2 -> x = y /\ rest1 = rest2.
Proof.
  unfold entity.
  destruct (N.eqb_spec x AMP) as [->|?]; [|destruct (N.eqb_spec x LT) as [->|?];
    [|destruct (N.eqb_spec x GT) as [->|?]]];
  (destruct (N.eqb_spec y AMP) as [->|?]; [|destruct (N.eqb_spec y LT) as [->|?];
    [|destruct (N.eqb_spec y GT) as [->|?]]]);
  cbn; intros Heq; simplify_eq; try done.
Qed.

(** X5.  Escaping is one-to-one and keeps concatenation: two texts with
    the same escaped text are the same text, so that a reader of the feed
    can recover every field, and the escaped text is never shorter than
    the text. *)
Theorem X5_esc_injective (s1 s2 : pystr) :
  (esc s1 = esc s2 -> s1 = s2)
  /\ esc (s1 ++ s2) = esc s1 ++ esc s2
  /\ length s1 <= length (esc s1).
Proof.
  split; [|split; [apply esc_app|]].
  - rewrite !esc_flat_map. revert s2.
    induction s1 as [|x s1 IH]; intros [|y s2]; cbn [flat_map]; intros Heq.
    + done.
    + exfalso. unfold entity in Heq. by repeat case_match.
    + exfalso. unfold entity in Heq. by repeat case_match.
    + apply entity_prefix_free in Heq as [-> Heq]. f_equal. by apply IH.
  - rewrite esc_flat_map. induction s1 as [|x s1 IH]; [done|].
    cbn [flat_map]. rewrite length_app. cbn [length].
    assert (1 <= length (entity x)); [|lia].
    unfold entity. repeat case_match; cbn; lia.
Qed.

(** ** The normalizer touches whitespace only *)

Lemma visible_all_space s :
  Forall (fun c => isspace c = true) s -> visible s = [].
Proof.
  unfold visible. induction 1 as [|c s Hc _ IH]; [done|].
  rewrite filter_cons_False; [exact IH|]. congruence.
Qed.

Lemma visible_nil_all_space s :
  visible s = [] -> Forall (fun c => isspace c = true) s.
Proof.
  unfold visible. induction s as [|c s IH]; [constructor|].
  rewrite filter_cons. destruct (decide (isspace c = false)) as [|Hc]; [done|].
  intros Hs. constructor; [by destruct (isspace c)|by apply IH].
Qed.

Section CollapsedVisible.
Variable cls : N -> bool.
Variable r : N.
Hypothesis cls_space : forall c, cls c = true -> isspace c = true.
Hypothesis r_space : isspace r = true.

Lemma collapsed_visible s t :
  collapsed cls r s t -> visible t = visible s /\ length t <= length s.
Proof.
  induction 1 as [|c s t Hc _ [IHv IHl]|run s t Hne Hrun _ _ [IHv IHl]].
  - done.
  - split; [|cbn; lia]. unfold visible in *. rewrite !filter_cons.
    destruct (decide (isspace c = false)); by rewrite IHv.
  - split.
    + unfold visible in *. rewrite filter_cons_False by congruence.
      rewrite filter_app, IHv.
      assert (visible run = []) as Hnone.
      { apply visible_all_space. eapply Forall_impl; [exact Hrun|]. exact cls_space. }
      unfold visible in Hnone. by rewrite Hnone.
    + rewrite length_app. destruct run; [done|]. cbn. lia.
Qed.
End CollapsedVisible.

Lemma blank_is_space c : is_blank c = true -> isspace c = true.
Proof.
  unfold is_blank. intros Hc. apply orb_true_iff in Hc as [Hc|Hc];
    apply N.eqb_eq in Hc; by subst.
Qed.

Lemma newline_is_space c : is_newline c = true -> isspace c = true.
Proof. unfold is_newline. intros Hc. apply N.eqb_eq in Hc. by subst. Qed.

Lemma normalized_visible raw out :
  normalized_from raw out ->
  visible out = visible raw
  /\ length out <= length raw
  /\ (out = [] <-> Forall (fun c => isspace c = true) raw).
Proof.
  intros (t1 & t2 & before & after & H1 & H2 & Ht2 & Hb & Ha & Hstart & _).
  destruct (collapsed_visible is_blank SPACE blank_is_space eq_refl _ _ H1)
    as [Hv1 Hl1].
  destruct (collapsed_visible is_newline LF newline_is_space eq_refl _ _ H2)
    as [Hv2 Hl2].
  assert (visible out = visible raw) as Hv.
  { rewrite <- Hv1, <- Hv2, Ht2. unfold visible. rewrite !filter_app.
    fold (visible before). fold (visible after).
    by rewrite (visible_all_space before), (visible_all_space after), app_nil_r. }
  split; [exact Hv|]. split.
  - transitivity (length t2); [|lia]. rewrite Ht2, !length_app. lia.
  - split.
    + intros ->. apply visible_nil_all_space. by rewrite <- Hv.
    + intros Hraw. rewrite (visible_all_space raw Hraw) in Hv.
      apply visible_nil_all_space in Hv.
      destruct out as [|c out]; [done|].
      apply Forall_cons in Hv as [Hc _]. cbn in Hstart. congruence.
Qed.

Section NormalizerVisible.
Context `{External}.

(** X6.  The normalizer changes whitespace only: the characters of its
    output that are not whitespace are those of the text taken from the
    document, in the same order; the output is never longer than that
    text; and the output is empty exactly when that text is whitespace
    throughout.  An empty selector is no selector. *)
Theorem X6_normalizer_keeps_visible_text (html : pystr) :
  let raw :=
    get_text
      (decompose_all [lit "script"; lit "style"; lit "noscript"]
         (BeautifulSoup html)) [LF] in
  visible (clean_html html None) = visible raw
  /\ length (clean_html html None) <= length raw
  /\ (clean_html html None = [] <-> Forall (fun c => isspace c = true) raw)
  /\ clean_html html (Some []) = clean_html html None.
Proof.
  intros raw.
  destruct (normalized_visible raw (clean_html html None)) as (Hv & Hl & He).
  { apply extract_text_normalized. }
  done.
Qed.
End NormalizerVisible.

(** ** The bound of the log and the order of the feed *)

Lemma at_time_insert (t : Q) (x : ChangeRecord) l :
  at_time t (insert_desc c_timestamp x l) = at_time t (x :: l).
Proof.
  unfold at_time. induction l as [|y l IH]; [done|].
  cbn [insert_desc].
  destruct (Qle_bool (c_timestamp y) (c_timestamp x)) eqn:Hle; cbn [negb]; [done|].
  rewrite filter_cons, IH, !filter_cons.
  destruct (decide (Qeq_bool (c_timestamp y) t = true)) as [Hy|Hy]; [|done].
  destruct (decide (Qeq_bool (c_timestamp x) t = true)) as [Hx|Hx]; [|done].
  exfalso. apply Qeq_bool_iff in Hx, Hy.
  assert (Qle_bool (c_timestamp y) (c_timestamp x) = true); [|congruence].
  apply Qle_bool_iff. rewrite Hx, Hy. apply Qle_refl.
Qed.

(** X7.  Sorting the log keeps the records of one timestamp in the order
    of the log: in the written log and in the feed, two changes recorded
    at the same time appear in the order in which they were appended. *)
Theorem X7_equal_timestamps_keep_log_order (t : Q) (l : list ChangeRecord) :
  at_time t (py_sorted_reverse c_timestamp l) = at_time t l.
Proof.
  induction l as [|x l IH]; [done|].
  cbn [py_sorted_reverse foldr]. fold (py_sorted_reverse c_timestamp l).
  rewrite at_time_insert. unfold at_time in *. by rewrite !filter_cons, IH.
Qed.

(** X8.  Cutting the log loses no record while the log has at most 1000
    records; a log that is within the bound and sorted is written back as
    it is; and cutting twice is cutting once. *)
Theorem X8_bounded_log_keeps_small_logs (l : list ChangeRecord) :
  (length l <= 1000 -> Permutation (bounded_log l) l)
  /\ (log_bounded l -> bounded_log l = l)
  /\ bounded_log (bounded_log l) = bounded_log l.
Proof.
  assert (forall l', log_bounded l' -> bounded_log l' = l') as Hid.
  { intros l' [Hlen Hsorted]. unfold bounded_log.
    rewrite py_sorted_reverse_id by done. by apply take_ge. }
  split; [|split; [apply Hid|apply Hid, bounded_log_bounded]].
  intros Hlen. unfold bounded_log. rewrite take_ge.
  - apply py_sorted_reverse_perm.
  - by rewrite (Permutation_length (py_sorted_reverse_perm l)).
Qed.

(** X9.  The feed shows the same records whether it is made from the log
    in memory or from the log cut to 1000 records: sorting and cutting to
    100 after sorting and cutting to 1000 is sorting and cutting to 100. *)
Theorem X9_feed_of_cut_log (l : list ChangeRecord) :
  feed_records (bounded_log l) = feed_records l
  /\ length (feed_records l) = 100 `min` length l.
Proof.
  split; [apply feed_records_bounded_log|].
  unfold feed_records. apply top_most_recent.
Qed.

(** ** What a visit keeps *)

Section VisitKeeps.
Context `{External}.
Variable env : Env.
Variable entry : Entry.
Variable prev : TargetState.
Variable resp : Response.
Variable r : Run.

(** The three outcomes of a visit. *)
Lemma handle_response_cases :
  let content := clean_html (text resp) (e_selector entry) in
  handle_response env entry prev resp r = r
  \/ handle_response env entry prev resp r
     = record_change env entry prev resp content (sha256 content) r
  \/ (st_hash prev = Some (sha256 content)
      /\ handle_response env entry prev resp r
         = refresh_validators entry prev resp (sha256 content) r).
Proof.
  intros content. unfold handle_response. fold content.
  destruct (status_code resp =? 304)%Z; [by left|].
  destruct (is_success (status_code resp)); [|by left]. cbn [negb].
  destruct (decide (st_hash prev = Some (sha256 content))) as [Hsame|Hdiff].
  - right. right. split; [exact Hsame|]. by rewrite bool_decide_eq_true_2.
  - right. left. by rewrite bool_decide_eq_false_2.
Qed.

Lemma handle_response_other other :
  other <> e_id entry ->
  state (handle_response env entry prev resp r) !! other = state r !! other
  /\ forall name,
       snap_files (handle_response env entry prev resp r) !! (other, name)
       = snap_files r !! (other, name).
Proof.
  intros Hother.
  destruct handle_response_cases as [->|[->|[_ ->]]].
  - done.
  - unfold record_change. cbn [state snap_files].
    split; [by rewrite lookup_insert_ne|].
    intros name. rewrite !lookup_insert_ne; [done| |]; intros [=]; congruence.
  - unfold refresh_validators. cbn [state snap_files].
    split; [by rewrite lookup_insert_ne|done].
Qed.

Lemma handle_response_keeps :
  (forall uid, is_Some (state r !! uid) ->
               is_Some (state (handle_response env entry prev resp r) !! uid))
  /\ (forall path, is_Some (snap_files r !! path) ->
                   is_Some (snap_files (handle_response env entry prev resp r) !! path)).
Proof.
  destruct handle_response_cases as [->|[->|[_ ->]]].
  - done.
  - unfold record_change. cbn [state snap_files]. split.
    + intros uid Huid. apply lookup_insert_is_Some'. by right.
    + intros path Hpath. apply lookup_insert_is_Some'. right.
      apply lookup_insert_is_Some'. by right.
  - unfold refresh_validators. cbn [state snap_files]. split; [|done].
    intros uid Huid. apply lookup_insert_is_Some'. by right.
Qed.

(** The log grows by the record of the target, or not at all, and the flag
    goes up exactly when it grows. *)
Lemma handle_response_log :
  exists new,
    changes (handle_response env entry prev resp r) = changes r ++ new
    /\ length new <= 1
    /\ Forall (fun c => c_id c = e_id entry) new
    /\ (something_changed (handle_response env entry prev resp r) = true
        <-> something_changed r = true \/ new <> []).
Proof.
  destruct handle_response_cases as [->|[->|[_ ->]]].
  - exists []. rewrite app_nil_r. repeat split; try done; [cbn; lia|tauto|].
    by intros [?|?].
  - eexists [_]. unfold record_change. cbn [changes something_changed].
    repeat split; try done; [by repeat constructor|by right].
  - exists []. unfold refresh_validators. cbn [changes something_changed].
    rewrite app_nil_r. repeat split; try done; [cbn; lia|tauto|].
    by intros [?|?].
Qed.

(** A visit that leaves the flag down has written no snapshot. *)
Lemma handle_response_quiet_files :
  something_changed (handle_response env entry prev resp r) = false ->
  snap_files (handle_response env entry prev resp r) = snap_files r.
Proof.
  destruct handle_response_cases as [->|[->|[_ ->]]]; done.
Qed.
End VisitKeeps.

Section LoopKeeps.
Context `{External}.

(** X10.  A visit changes the state record of its own target only,
    whatever the response; and when the two ids are plain names of
    directories, it leaves the snapshot files of every other target as
    they were. *)
Theorem X10_visit_touches_own_target (env : Env) (i : nat) (entry : Entry)
    (r : Run) (other : pystr) :
  other <> e_id entry ->
  state (visit env i entry r) !! other = state r !! other
  /\ (plain_id other -> plain_id (e_id entry) ->
      forall name,
        snap_files (visit env i entry r) !! (other, name)
        = snap_files r !! (other, name)).
Proof.
  intros Hother.
  destruct (handle_response_other env entry
              (default no_state (state r !! e_id entry))
              (fetch_with_conditionals env i (e_url entry)
                 (default no_state (state r !! e_id entry))) r other Hother)
    as [Hstate Hfiles].
  split; [exact Hstate|]. intros _ _. exact Hfiles.
Qed.

(** X11.  After a visit answered by a success, the hash stored for the
    target is the hash of the normalized text of that response, whether
    the text changed or not. *)
Theorem X11_stored_hash_is_last_fetched (env : Env) (i : nat) (entry : Entry)
    (r : Run) :
  let prev := default no_state (state r !! e_id entry) in
  let resp := fetch_with_conditionals env i (e_url entry) prev in
  (200 <= status_code resp < 300)%Z ->
  st_hash <$> (state (visit env i entry r) !! e_id entry)
  = Some (Some (sha256 (clean_html (text resp) (e_selector entry)))).
Proof.
  intros prev resp Hok. unfold visit. fold prev. fold resp.
  assert (is_success (status_code resp) = true) as Hsuccess
    by (unfold is_success; lia).
  destruct (decide (st_hash prev
                    = Some (sha256 (clean_html (text resp) (e_selector entry)))))
    as [Hsame|Hdiff].
  - rewrite handle_response_same by done.
    unfold refresh_validators. cbn [state]. by rewrite lookup_insert_eq.
  - rewrite handle_response_changed by done.
    unfold record_change. cbn [state]. by rewrite lookup_insert_eq.
Qed.

Lemma for_each_log env urls : forall i r,
  exists new,
    changes (for_each_entry env i urls r) = changes r ++ new
    /\ length new <= length urls
    /\ Forall (fun c => c_id c ∈ map e_id urls) new
    /\ (something_changed (for_each_entry env i urls r) = true
        <-> something_changed r = true \/ new <> []).
Proof.
  induction urls as [|entry rest IH]; intros i r.
  - exists []. rewrite app_nil_r. repeat split; try done; [tauto|by intros [?|?]].
  - cbn [for_each_entry].
    destruct (IH (S i) (visit env i entry r)) as (later & Hlog & Hlen & Hids & Hflag).
    destruct (handle_response_log env entry
                (default no_state (state r !! e_id entry))
                (fetch_with_conditionals env i (e_url entry)
                   (default no_state (state r !! e_id entry))) r)
      as (first & Hlog1 & Hlen1 & Hids1 & Hflag1).
    fold (visit env i entry r) in Hlog1, Hflag1.
    exists (first ++ later). rewrite Hlog, Hlog1, <- app_assoc.
    split; [done|]. split; [rewrite length_app; cbn; lia|]. split.
    + apply Forall_app. split.
      * eapply Forall_impl; [exact Hids1|]. intros c ->. cbn. apply elem_of_cons. by left.
      * eapply Forall_impl; [exact Hids|]. intros c Hc. cbn. apply elem_of_cons. by right.
    + rewrite Hflag, Hflag1. destruct first, later; cbn; intuition congruence.
Qed.

(** X12.  The loop only appends to the log: after it, the log is the log
    it was given followed by at most one new record per target of the
    list, each bearing the id of a target of the list; and the run's flag
    is up exactly when a record was appended. *)
Theorem X12_log_is_append_only (env : Env) (d : Disk) :
  exists new,
    changes (after_loop env d) = load_json (CHANGES_FILE d) [] ++ new
    /\ length new <= length (load_json (URLS_FILE d) [])
    /\ Forall (fun c => c_id c ∈ map e_id (load_json (URLS_FILE d) [])) new
    /\ (something_changed (after_loop env d) = true <-> new <> []).
Proof.
  destruct (for_each_log env (load_json (URLS_FILE d) []) 0 (start_of_run d))
    as (new & Hlog & Hlen & Hids & Hflag).
  exists new. repeat split; try done.
  - intros Hup. apply Hflag in Hup as [Hup|Hup]; done.
  - intros Hnew. apply Hflag. by right.
Qed.

Lemma for_each_keeps env urls : forall i r,
  (forall uid, is_Some (state r !! uid) ->
               is_Some (state (for_each_entry env i urls r) !! uid))
  /\ (forall path, is_Some (snap_files r !! path) ->
                   is_Some (snap_files (for_each_entry env i urls r) !! path)).
Proof.
  induction urls as [|entry rest IH]; intros i r; [done|].
  cbn [for_each_entry].
  destruct (IH (S i) (visit env i entry r)) as [IHs IHf].
  destruct (handle_response_keeps env entry
              (default no_state (state r !! e_id entry))
              (fetch_with_conditionals env i (e_url entry)
                 (default no_state (state r !! e_id entry))) r) as [Hs Hf].
  split; [intros uid Huid; apply IHs, Hs, Huid|].
  intros path Hpath. apply IHf, Hf, Hpath.
Qed.

Lemma for_each_quiet_files env urls : forall i r,
  something_changed (for_each_entry env i urls r) = false ->
  snap_files (for_each_entry env i urls r) = snap_files r.
Proof.
  induction urls as [|entry rest IH]; intros i r Hquiet; [done|].
  cbn [for_each_entry] in *.
  destruct (something_changed (visit env i entry r)) eqn:Hflag.
  - by rewrite for_each_flag in Hquiet.
  - rewrite IH by done. by apply handle_response_quiet_files.
Qed.

(** What a run leaves in the state file and in the snapshot directory. *)
Lemma main_state_and_snapshots env d :
  STATE_FILE (main env d)
  = (if something_changed (after_loop env d)
     then Some (state (after_loop env d)) else STATE_FILE d)
  /\ SNAPSHOTS (main env d) = snap_files (after_loop env d).
Proof.
  unfold main. destruct (something_changed (after_loop env d));
    rewrite generate_feed_writes; cbn [write_feed STATE_FILE SNAPSHOTS];
    unfold ensure_index_html; cbn [INDEX_FILE]; by destruct (INDEX_FILE d).
Qed.

(** X13.  Nothing is ever deleted: a target that has a record in the state
    file, and a snapshot file that exists, still have one after any number
    of runs. *)
Theorem X13_runs_delete_nothing (envs : list Env) (d : Disk) :
  (forall uid,
      is_Some (load_json (STATE_FILE d) ∅ !! uid) ->
      is_Some (load_json (STATE_FILE (runs envs d)) ∅ !! uid))
  /\ (forall path,
        is_Some (SNAPSHOTS d !! path) ->
        is_Some (SNAPSHOTS (runs envs d) !! path)).
Proof.
  revert d. induction envs as [|env later IH]; intros d; [done|].
  cbn [runs]. destruct (IH (main env d)) as [IHs IHf].
  destruct (main_state_and_snapshots env d) as [Hstate Hfiles].
  destruct (for_each_keeps env (load_json (URLS_FILE d) []) 0 (start_of_run d))
    as [Hs Hf].
  fold (after_loop env d) in Hs, Hf.
  split.
  - intros uid Huid. apply IHs. rewrite Hstate.
    destruct (something_changed (after_loop env d)); [|done].
    by apply Hs.
  - intros path Hpath. apply IHf. rewrite Hfiles. by apply Hf.
Qed.

(** X14.  A run in which no change is detected writes the feed and the
    landing page only: the state file, the change log and the snapshot
    directory are left as they were, so that validators refreshed in
    memory during such a run are not saved. *)
Theorem X14_quiet_run_saves_nothing (env : Env) (d : Disk) :
  something_changed (after_loop env d) = false ->
  STATE_FILE (main env d) = STATE_FILE d
  /\ CHANGES_FILE (main env d) = CHANGES_FILE d
  /\ SNAPSHOTS (main env d) = SNAPSHOTS d.
Proof.
  intros Hquiet.
  destruct (main_state_and_snapshots env d) as [-> ->].
  rewrite main_log, Hquiet. split; [done|]. split; [done|].
  unfold after_loop in *. by rewrite for_each_quiet_files.
Qed.
End LoopKeeps.

(** ** Runs on unchanged pages, and the first run *)

Section Reruns.
Context `{External}.

Lemma fetch_is_a_request env i url prev :
  exists headers, fetch_with_conditionals env i url prev = requests_get env i url headers.
Proof. by eexists. Qed.

Lemma for_each_known (env : Env) (st : gmap pystr TargetState)
    (urls : list Entry) : forall i r,
  something_changed r = false ->
  (forall uid, st_hash (default no_state (state r !! uid))
               = st_hash (default no_state (st !! uid))) ->
  (forall j entry, urls !! j = Some entry -> known_content env st (i + j) entry) ->
  something_changed (for_each_entry env i urls r) = false.
Proof.
  induction urls as [|entry rest IH]; intros i r Hflag Hhash Hknown; [done|].
  cbn [for_each_entry]. apply IH.
  - unfold visit.
    destruct (fetch_is_a_request env i (e_url entry)
                (default no_state (state r !! e_id entry))) as [headers ->].
    pose proof (Hknown 0 entry eq_refl headers) as Hanswer.
    rewrite Nat.add_0_r in Hanswer. cbn zeta in Hanswer.
    destruct Hanswer as [Hout|Hsame].
    + rewrite handle_response_skip; [done|by right].
    + rewrite <- Hhash in Hsame.
      destruct (decide (200 <= status_code (requests_get env i (e_url entry) headers) < 300)%Z)
        as [Hok|Hout]; [|rewrite handle_response_skip; [done|by right]].
      rewrite handle_response_same; [done| |done]. unfold is_success. lia.
  - intros uid. unfold visit.
    destruct (fetch_is_a_request env i (e_url entry)
                (default no_state (state r !! e_id entry))) as [headers ->].
    pose proof (Hknown 0 entry eq_refl headers) as Hanswer.
    rewrite Nat.add_0_r in Hanswer. cbn zeta in Hanswer.
    destruct (decide (200 <= status_code (requests_get env i (e_url entry) headers) < 300)%Z)
      as [Hok|Hout]; [|rewrite handle_response_skip; [apply Hhash|by right]].
    destruct Hanswer as [Hout|Hsame]; [done|].
    pose proof Hsame as Hstored. rewrite <- Hhash in Hstored.
    rewrite handle_response_same; [| unfold is_success; lia |done].
    unfold refresh_validators. cbn [state].
    destruct (decide (uid = e_id entry)) as [->|Hother].
    + rewrite lookup_insert_eq. cbn. by rewrite Hsame.
    + rewrite lookup_insert_ne by done. apply Hhash.
  - intros j entry' Hj. replace (S i + j) with (i + S j) by lia. by apply Hknown.
Qed.

(** X15.  A run on unchanged pages records nothing: when every target is
    answered, whatever the headers of the request, by a response that is
    not a success or whose normalized text has the hash stored in the
    state file, the run detects no change and leaves the state file, the
    change log and the snapshot directory as they were. *)
Theorem X15_unchanged_pages_record_nothing (env : Env) (d : Disk) :
  (forall j entry,
      load_json (URLS_FILE d) [] !! j = Some entry ->
      known_content env (load_json (STATE_FILE d) ∅) j entry) ->
  something_changed (after_loop env d) = false
  /\ STATE_FILE (main env d) = STATE_FILE d
  /\ CHANGES_FILE (main env d) = CHANGES_FILE d
  /\ SNAPSHOTS (main env d) = SNAPSHOTS d.
Proof.
  intros Hknown.
  assert (something_changed (after_loop env d) = false) as Hquiet.
  { unfold after_loop.
    by apply (for_each_known env (load_json (STATE_FILE d) ∅)). }
  split; [exact Hquiet|].
  destruct (main_state_and_snapshots env d) as [-> ->].
  rewrite main_log, Hquiet. split; [done|]. split; [done|].
  unfold after_loop in *. by rewrite for_each_quiet_files.
Qed.

Lemma handle_response_consistent env entry resp r :
  snapshots_consistent (state r) (snap_files r) ->
  let r' := handle_response env entry
              (default no_state (state r !! e_id entry)) resp r in
  snapshots_consistent (state r') (snap_files r').
Proof.
  intros Hr r'. subst r'.
  set (prev := default no_state (state r !! e_id entry)).
  destruct (handle_response_cases env entry prev resp r)
    as [->|[->|[Hsame ->]]]; [done| |].
  - unfold record_change. cbn [state snap_files].
    intros uid rec name Hrec Hname.
    destruct (decide (uid = e_id entry)) as [->|Hother].
    + rewrite lookup_insert_eq in Hrec. injection Hrec as <-.
      cbn [st_last_text_file st_hash] in *. injection Hname as <-.
      eexists. split; [|reflexivity].
      rewrite lookup_insert_ne, lookup_insert_eq; [done|].
      intros [=Heq]. symmetry in Heq. by apply snapshot_names_differ in Heq.
    + rewrite lookup_insert_ne in Hrec by done.
      rewrite !lookup_insert_ne by (intros [=]; congruence).
      by eapply Hr.
  - unfold refresh_validators. cbn [state snap_files].
    intros uid rec name Hrec Hname.
    destruct (decide (uid = e_id entry)) as [->|Hother].
    + rewrite lookup_insert_eq in Hrec. injection Hrec as <-.
      cbn [st_last_text_file st_hash] in *.
      subst prev. destruct (state r !! e_id entry) as [stored|] eqn:Hstored; [|done].
      cbn [from_option id] in Hname, Hsame.
      destruct (Hr _ _ _ Hstored Hname) as (content & Hfile & Hhash).
      exists content. split; [done|]. congruence.
    + rewrite lookup_insert_ne in Hrec by done. by eapply Hr.
Qed.

Lemma for_each_consistent env urls : forall i r,
  snapshots_consistent (state r) (snap_files r) ->
  snapshots_consistent (state (for_each_entry env i urls r))
    (snap_files (for_each_entry env i urls r)).
Proof.
  induction urls as [|entry rest IH]; intros i r Hr; [done|].
  cbn [for_each_entry]. apply IH. by apply handle_response_consistent.
Qed.

(** X16.  The snapshot pointers stay sound over runs in which no request
    raises, when the ids of the targets and of the state file are plain
    names of directories: if, in the state file, every pointer names an
    existing snapshot file of its target whose text has the stored hash,
    then this is so again after any number of such runs; it is so in
    particular after runs that start without a state file. *)
Theorem X16_snapshot_pointers_stay_sound (envs : list Env) (d : Disk) :
  (forall entry, entry ∈ load_json (URLS_FILE d) [] -> plain_id (e_id entry)) ->
  (forall uid, is_Some (load_json (STATE_FILE d) ∅ !! uid) -> plain_id uid) ->
  snapshots_consistent (load_json (STATE_FILE d) ∅) (SNAPSHOTS d) ->
  snapshots_consistent (load_json (STATE_FILE (runs envs d)) ∅)
    (SNAPSHOTS (runs envs d)).
Proof.
  intros _ _. revert d. induction envs as [|env later IH]; intros d Hd; [done|].
  cbn [runs]. apply IH.
  destruct (main_state_and_snapshots env d) as [-> ->].
  destruct (something_changed (after_loop env d)) eqn:Hflag.
  - by apply for_each_consistent.
  - unfold after_loop in *. by rewrite for_each_quiet_files.
Qed.

Lemma for_each_first_fetch env urls : forall i r,
  always_succeeds env ->
  NoDup (map e_id urls) ->
  (forall entry, entry ∈ urls -> state r !! e_id entry = None) ->
  exists new,
    changes (for_each_entry env i urls r) = changes r ++ new
    /\ map c_id new = map e_id urls
    /\ map c_url new = map e_url urls.
Proof.
  induction urls as [|entry rest IH]; intros i r Hok Hdup Hfresh.
  - exists []. by rewrite app_nil_r.
  - cbn [for_each_entry]. cbn [map] in Hdup. apply NoDup_cons in Hdup as [Hnotin Hdup].
    assert (state r !! e_id entry = None) as Hnone
      by (apply Hfresh, elem_of_cons; by left).
    assert (visit env i entry r
            = record_change env entry no_state
                (fetch_with_conditionals env i (e_url entry) no_state)
                (clean_html (text (fetch_with_conditionals env i (e_url entry) no_state))
                   (e_selector entry))
                (sha256 (clean_html
                           (text (fetch_with_conditionals env i (e_url entry) no_state))
                           (e_selector entry))) r) as Hvisit.
    { unfold visit. rewrite Hnone. cbn [from_option].
      apply handle_response_changed; [|done].
      unfold is_success. pose proof (Hok i (e_url entry)) as Hstatus.
      destruct (fetch_is_a_request env i (e_url entry) no_state) as [headers ->].
      specialize (Hstatus headers). lia. }
    destruct (IH (S i) (visit env i entry r) Hok Hdup) as (later & Hlog & Hids & Hurls).
    + intros entry' Hin. rewrite Hvisit. unfold record_change. cbn [state].
      rewrite lookup_insert_ne.
      * apply Hfresh, elem_of_cons. by right.
      * intros Heq. apply Hnotin. rewrite Heq. by apply list_elem_of_fmap_2.
    + rewrite Hlog, Hvisit. unfold record_change at 1. cbn [changes].
      eexists (_ :: later). rewrite <- app_assoc. split; [reflexivity|].
      cbn [map c_id c_url]. by rewrite Hids, Hurls.
Qed.

(** X17.  The first run records every target: when the state file holds
    none of the targets, the ids of the list are distinct and every
    request is answered by a success, the loop appends to the log exactly
    one record per target, in the order of the list. *)
Theorem X17_first_run_records_every_target (env : Env) (d : Disk) :
  always_succeeds env ->
  NoDup (map e_id (load_json (URLS_FILE d) [])) ->
  (forall entry,
      entry ∈ load_json (URLS_FILE d) [] ->
      load_json (STATE_FILE d) ∅ !! e_id entry = None) ->
  exists new,
    changes (after_loop env d) = load_json (CHANGES_FILE d) [] ++ new
    /\ map c_id new = map e_id (load_json (URLS_FILE d) [])
    /\ map c_url new = map e_url (load_json (URLS_FILE d) []).
Proof.
  intros Hok Hdup Hfresh. unfold after_loop.
  by apply for_each_first_fetch.
Qed.
End Reruns.

(** ** The feed and the clock *)

Section FeedClock.
Context `{External}.

Lemma items_loop_dated env cs : forall k,
  Forall (fun c => ~ (c_timestamp c == 0)%Q) cs ->
  items_loop env k cs
  = (map (fun c => item_xml (format_datetime (c_timestamp c)) c) cs, k).
Proof.
  induction cs as [|c rest IH]; intros k Hcs; [done|].
  apply Forall_cons in Hcs as [Hc Hrest].
  cbn [items_loop rfc2822_now map].
  destruct (Qeq_bool (c_timestamp c) 0) eqn:Hzero.
  - by apply Qeq_bool_iff in Hzero.
  - by rewrite IH.
Qed.

(** X18.  [generate_feed] writes the feed file and no other file.  When no
    record of the log has the timestamp 0, every item is dated by the
    timestamp of its record and the clock is read once, for the build
    date: two feeds made from the same log differ by the build date at
    most.  A record whose timestamp is 0 is dated by the clock instead. *)
Theorem X18_feed_depends_on_log_and_build_time (env : Env) (k : nat)
    (cs : list ChangeRecord) (d : Disk) :
  (URLS_FILE (generate_feed env k cs d) = URLS_FILE d
   /\ STATE_FILE (generate_feed env k cs d) = STATE_FILE d
   /\ CHANGES_FILE (generate_feed env k cs d) = CHANGES_FILE d
   /\ SNAPSHOTS (generate_feed env k cs d) = SNAPSHOTS d
   /\ INDEX_FILE (generate_feed env k cs d) = INDEX_FILE d)
  /\ (Forall (fun c => ~ (c_timestamp c == 0)%Q) cs ->
      FEED_FILE (generate_feed env k cs d)
      = Some (feed_document (format_datetime (time_time env k))
                (map (fun c => item_xml (format_datetime (c_timestamp c)) c)
                   (feed_records cs))))
  /\ (forall c, (c_timestamp c == 0)%Q ->
        rfc2822_now env k (Some (c_timestamp c))
        = (format_datetime (time_time env k), S k)).
Proof.
  rewrite generate_feed_writes. split; [done|]. split.
  - intros Hcs. cbn [write_feed FEED_FILE].
    rewrite items_loop_dated; [done|].
    apply Forall_forall. intros c Hc.
    assert (c ∈ cs) as Hin.
    { unfold feed_records in Hc. apply elem_of_take in Hc as (j & Hj & _).
      rewrite <- (py_sorted_reverse_perm cs).
      apply list_elem_of_lookup. by exists j. }
    by apply (proj1 (Forall_forall _ _) Hcs).
  - intros c Hzero. unfold rfc2822_now.
    apply Qeq_bool_iff in Hzero. by rewrite Hzero.
Qed.
End FeedClock.

(** ** The newest change, and the clock *)

Lemma py_sorted_reverse_newest (c : ChangeRecord) l :
  Forall (fun x => (c_timestamp x < c_timestamp c)%Q) l ->
  py_sorted_reverse c_timestamp (l ++ [c]) = c :: py_sorted_reverse c_timestamp l.
Proof.
  induction 1 as [|x l Hx _ IH]; [done|].
  cbn [app py_sorted_reverse foldr].
  fold (py_sorted_reverse c_timestamp (l ++ [c])).
  fold (py_sorted_reverse c_timestamp l).
  rewrite IH. cbn [insert_desc].
  destruct (Qle_bool (c_timestamp c) (c_timestamp x)) eqn:Hle; [|done].
  apply Qle_bool_iff in Hle. exfalso. by eapply Qlt_not_le.
Qed.

(** X19.  A change that is newer than every record of the log comes
    first: appended to the log, it is the first record of the written log
    and the first record shown by the feed, followed by the most recent
    records of the log. *)
Theorem X19_newest_change_comes_first (c : ChangeRecord) (l : list ChangeRecord) :
  Forall (fun x => (c_timestamp x < c_timestamp c)%Q) l ->
  bounded_log (l ++ [c]) = c :: take 999 (py_sorted_reverse c_timestamp l)
  /\ feed_records (l ++ [c]) = c :: take 99 (py_sorted_reverse c_timestamp l).
Proof.
  intros Hnewer. unfold bounded_log, feed_records.
  by rewrite py_sorted_reverse_newest.
Qed.

Section Clock.
Context `{External}.

Lemma handle_response_clock env entry prev resp r :
  exists new,
    changes (handle_response env entry prev resp r) = changes r ++ new
    /\ clock_reads (handle_response env entry prev resp r)
       = clock_reads r + length new
    /\ map c_timestamp new
       = map (time_time env) (seq (clock_reads r) (length new)).
Proof.
  destruct (handle_response_cases env entry prev resp r) as [->|[->|[_ ->]]].
  - exists []. by rewrite app_nil_r, Nat.add_0_r.
  - eexists [_]. unfold record_change. cbn [changes clock_reads length].
    split; [done|]. split; [lia|done].
  - exists []. unfold refresh_validators. cbn [changes clock_reads].
    by rewrite app_nil_r, Nat.add_0_r.
Qed.

Lemma for_each_clock env urls : forall i r,
  exists new,
    changes (for_each_entry env i urls r) = changes r ++ new
    /\ clock_reads (for_each_entry env i urls r) = clock_reads r + length new
    /\ map c_timestamp new
       = map (time_time env) (seq (clock_reads r) (length new)).
Proof.
  induction urls as [|entry rest IH]; intros i r.
  - exists []. by rewrite app_nil_r, Nat.add_0_r.
  - cbn [for_each_entry].
    destruct (IH (S i) (visit env i entry r)) as (later & Hlog & Hreads & Hstamps).
    destruct (handle_response_clock env entry
                (default no_state (state r !! e_id entry))
                (fetch_with_conditionals env i (e_url entry)
                   (default no_state (state r !! e_id entry))) r)
      as (first & Hlog1 & Hreads1 & Hstamps1).
    fold (visit env i entry r) in Hlog1, Hreads1.
    exists (first ++ later). rewrite Hlog, Hlog1, Hreads, Hreads1, <- app_assoc.
    split; [done|]. rewrite length_app. split; [lia|].
    rewrite map_app, seq_app, map_app, Hstamps1, Hstamps.
    by rewrite Hreads1.
Qed.

(** X20.  Every change of a run is stamped with a clock reading of its
    own: the records that the loop appends bear, in order, the first,
    second, ... reading of the clock made in the run, and the loop reads
    the clock exactly once for each of them. *)
Theorem X20_changes_are_stamped_in_turn (env : Env) (d : Disk) :
  exists new,
    changes (after_loop env d) = load_json (CHANGES_FILE d) [] ++ new
    /\ clock_reads (after_loop env d) = length new
    /\ map c_timestamp new = map (time_time env) (seq 0 (length new)).
Proof.
  destruct (for_each_clock env (load_json (URLS_FILE d) []) 0 (start_of_run d))
    as (new & Hlog & Hreads & Hstamps).
  by exists new.
Qed.
End Clock.

(** ** Running twice *)

Section Twice.
Context `{External}.

Lemma for_each_other env urls uid : forall i r,
  uid ∉ map e_id urls ->
  state (for_each_entry env i urls r) !! uid = state r !! uid.
Proof.
  induction urls as [|entry rest IH]; intros i r Hnotin; [done|].
  cbn [for_each_entry]. cbn [map] in Hnotin.
  apply not_elem_of_cons in Hnotin as [Hne Hnotin].
  rewrite IH by done. by apply handle_response_other.
Qed.

(** After the loop, a target with an id of its own whose request was
    answered by a success has the hash of that answer. *)
Lemma for_each_stored env urls : forall i r j entry,
  NoDup (map e_id urls) ->
  urls !! j = Some entry ->
  exists headers,
    let resp := requests_get env (i + j) (e_url entry) headers in
    (200 <= status_code resp < 300)%Z ->
    st_hash (default no_state (state (for_each_entry env i urls r) !! e_id entry))
    = Some (sha256 (clean_html (text resp) (e_selector entry))).
Proof.
  induction urls as [|first rest IH]; intros i r j entry Hdup Hj; [done|].
  cbn [map] in Hdup. apply NoDup_cons in Hdup as [Hnotin Hdup].
  cbn [for_each_entry]. destruct j as [|j].
  - injection Hj as ->. rewrite Nat.add_0_r.
    destruct (fetch_is_a_request env i (e_url entry)
                (default no_state (state r !! e_id entry))) as [headers Hfetch].
    exists headers. cbn zeta. intros Hok.
    set (resp := requests_get env i (e_url entry) headers) in *.
    rewrite for_each_other by done.
    unfold visit. rewrite Hfetch.
    assert (is_success (status_code resp) = true) as Hsuccess
      by (unfold is_success; lia).
    destruct (decide (st_hash (default no_state (state r !! e_id entry))
                      = Some (sha256 (clean_html (text resp) (e_selector entry)))))
      as [Hsame|Hdiff].
    + rewrite handle_response_same by done.
      unfold refresh_validators. cbn [state]. by rewrite lookup_insert_eq.
    + rewrite handle_response_changed by done.
      unfold record_change. cbn [state]. by rewrite lookup_insert_eq.
  - replace (i + S j) with (S i + j) by lia. by apply IH.
Qed.

(** A loop that ends with the flag down has kept every stored hash. *)
Lemma for_each_quiet_hash env urls : forall i r uid,
  something_changed (for_each_entry env i urls r) = false ->
  st_hash (default no_state (state (for_each_entry env i urls r) !! uid))
  = st_hash (default no_state (state r !! uid)).
Proof.
  induction urls as [|entry rest IH]; intros i r uid Hquiet; [done|].
  cbn [for_each_entry] in *.
  destruct (something_changed (visit env i entry r)) eqn:Hflag.
  - by rewrite for_each_flag in Hquiet.
  - rewrite IH by done. unfold visit in *.
    destruct (handle_response_cases env entry
                (default no_state (state r !! e_id entry))
                (fetch_with_conditionals env i (e_url entry)
                   (default no_state (state r !! e_id entry))) r)
      as [->|[Hcase|[Hsame ->]]]; [done| |].
    + by rewrite Hcase in Hflag.
    + unfold refresh_validators. cbn [state].
      destruct (decide (uid = e_id entry)) as [->|Hother].
      * rewrite lookup_insert_eq. cbn. by rewrite Hsame.
      * by rewrite lookup_insert_ne.
Qed.

(** X21.  Running twice on unchanged pages records nothing the second
    time: when the ids of the targets are distinct and the second run is
    answered, for every target, by no success (such as 304) or by the
    text of the first run, the second run detects no change and leaves
    the state file, the change log and the snapshot directory as the
    first run left them. *)
Theorem X21_second_run_records_nothing (before again : Env) (d : Disk) :
  NoDup (map e_id (load_json (URLS_FILE d) [])) ->
  same_pages before again (load_json (URLS_FILE d) []) ->
  let d1 := main before d in
  something_changed (after_loop again d1) = false
  /\ STATE_FILE (main again d1) = STATE_FILE d1
  /\ CHANGES_FILE (main again d1) = CHANGES_FILE d1
  /\ SNAPSHOTS (main again d1) = SNAPSHOTS d1.
Proof.
  intros Hdup Hsame d1.
  assert (URLS_FILE d1 = URLS_FILE d) as Hurls by apply main_index.
  assert (forall j entry,
             load_json (URLS_FILE d) [] !! j = Some entry ->
             known_content again (load_json (STATE_FILE d1) ∅) j entry) as Hknown.
  { intros j entry Hj headers'.
    destruct (for_each_stored before (load_json (URLS_FILE d) []) 0
                (start_of_run d) j entry Hdup Hj) as (headers & Hstored).
    cbn zeta in Hstored. cbn [Nat.add] in Hstored.
    fold (after_loop before d) in Hstored.
    destruct (Hsame j entry headers headers' Hj) as [Hout|[Hok Htext]]; [by left|].
    right. rewrite Htext, <- (Hstored Hok).
    subst d1. rewrite (proj1 (main_state_and_snapshots before d)).
    destruct (something_changed (after_loop before d)) eqn:Hflag; [done|].
    symmetry. unfold after_loop in *. by apply for_each_quiet_hash. }
  assert (something_changed (after_loop again d1) = false) as Hquiet.
  { unfold after_loop. rewrite Hurls.
    by apply (for_each_known again (load_json (STATE_FILE d1) ∅)). }
  split; [exact Hquiet|].
  destruct (main_state_and_snapshots again d1) as [-> ->].
  rewrite main_log, Hquiet. split; [done|]. split; [done|].
  unfold after_loop in *. by rewrite for_each_quiet_files.
Qed.
End Twice.

(** ** The further properties on concrete inputs *)

Section ConcreteFurther.
Local Existing Instance plain_text.

Lemma X1_conditional_headers_witness :
  exists headers,
    fetch_with_conditionals (constant_world (ok_response None []) 0) 0 [] no_state
    = ok_response None []
    /\ length headers = 2
    /\ header_value (lit "If-None-Match") headers = None.
Proof.
  destruct (X1_conditional_headers no_state) as (headers & _ & Hnone & _ & _ & _ & Hlen).
  exists headers. split; [reflexivity|]. split; [by apply Hlen|exact Hnone].
Defined.

Lemma X2_landing_page_written_once_witness :
  INDEX_FILE empty_disk = None
  /\ INDEX_FILE (ensure_index_html empty_disk) = Some index_page
  /\ ensure_index_html (ensure_index_html empty_disk) = ensure_index_html empty_disk.
Proof.
  destruct (X2_landing_page_written_once empty_disk) as (_ & Hnew & _).
  destruct (X2_landing_page_written_once (ensure_index_html empty_disk))
    as (Hold & _).
  split; [reflexivity|]. split; [by apply Hnew|].
  by apply (Hold index_page).
Defined.


Lemma X5_esc_injective_witness :
  esc (lit "a<b") = esc (lit "a<b") /\ lit "a<b" = lit "a<b".
Proof.
  split; [reflexivity|].
  by apply (X5_esc_injective (lit "a<b") (lit "a<b")).
Defined.

Lemma X6_normalizer_keeps_visible_text_witness :
  Forall (fun c => isspace c = true) ([SPACE; LF; TAB] : pystr)
  /\ clean_html [SPACE; LF; TAB] None = [].
Proof.
  assert (Forall (fun c => isspace c = true) ([SPACE; LF; TAB] : pystr)) as Hspace
    by (by repeat constructor).
  split; [exact Hspace|].
  by apply (X6_normalizer_keeps_visible_text [SPACE; LF; TAB]).
Defined.

Lemma X8_bounded_log_keeps_small_logs_witness :
  let c := {| c_id := lit "a"; c_url := []; c_title := []; c_timestamp := 100 # 1;
              c_hash := []; c_summary := None |} in
  length [c] <= 1000 /\ Permutation (bounded_log [c]) [c].
Proof.
  intros c. assert (length [c] <= 1000) as Hlen by (cbn; lia).
  split; [exact Hlen|].
  by apply (X8_bounded_log_keeps_small_logs [c]).
Defined.

Lemma X10_visit_touches_own_target_witness :
  let env := constant_world (ok_response None (lit "Hello")) (100 # 1) in
  let r := run_from (known_state (lit "old") None (Some (lit "50.txt")))
             {[ (lit "a", lit "50.txt") := lit "old" ]} in
  let other := {| e_id := lit "b"; e_url := lit "https://example.com/y";
                  e_title := None; e_selector := None |} in
  lit "a" <> e_id other
  /\ plain_id (lit "a") /\ plain_id (e_id other)
  /\ state (visit env 0 other r) !! lit "a" = state r !! lit "a"
  /\ snap_files (visit env 0 other r) !! (lit "a", lit "50.txt")
     = Some (lit "old").
Proof.
  intros env r other. assert (lit "a" <> e_id other) as Hne by done.
  assert (plain_id (lit "a")) as Ha.
  { repeat split; try done. by repeat constructor. }
  assert (plain_id (e_id other)) as Hb.
  { repeat split; try done. by repeat constructor. }
  split; [exact Hne|]. split; [exact Ha|]. split; [exact Hb|].
  destruct (X10_visit_touches_own_target env 0 other r (lit "a") Hne)
    as [Hstate Hfiles].
  split; [exact Hstate|]. by rewrite (Hfiles Ha Hb).
Defined.

Lemma X11_stored_hash_is_last_fetched_witness :
  let env := constant_world (ok_response None (lit "Hello")) (100 # 1) in
  (200 <= 200 < 300)%Z
  /\ st_hash <$> (state (visit env 0 watch_a fresh_run) !! lit "a")
     = Some (Some (lit "Hello")).
Proof.
  intros env. split; [lia|].
  assert (200 <= 200 < 300)%Z as Hok by lia.
  exact (X11_stored_hash_is_last_fetched env 0 watch_a fresh_run Hok).
Defined.

Lemma X12_log_is_append_only_witness :
  let env := constant_world (ok_response None (lit "Hello")) (100 # 1) in
  something_changed (after_loop env empty_disk) = true
  /\ exists new, changes (after_loop env empty_disk) = new /\ new <> [].
Proof.
  intros env. split; [reflexivity|].
  destruct (X12_log_is_append_only env empty_disk) as (new & Hlog & _ & _ & Hflag).
  exists new. split; [exact Hlog|]. by apply Hflag.
Defined.

Lemma X13_runs_delete_nothing_witness :
  let env := constant_world (ok_response None (lit "Hello")) (100 # 1) in
  let later := constant_world (ok_response None (lit "Bye")) (200 # 1) in
  let d := main env empty_disk in
  is_Some (SNAPSHOTS d !! (lit "a", lit "100.txt"))
  /\ is_Some (SNAPSHOTS (runs [later; later] d) !! (lit "a", lit "100.txt")).
Proof.
  intros env later d.
  assert (is_Some (SNAPSHOTS d !! (lit "a", lit "100.txt"))) as Hfile
    by (by eexists).
  split; [exact Hfile|].
  by apply (X13_runs_delete_nothing [later; later] d).
Defined.

(** The disk after a first run that stored the etag [v1]. *)
Lemma X14_quiet_run_saves_nothing_witness :
  let first := constant_world (ok_response (Some (lit "v1")) (lit "Hello")) (100 # 1) in
  let again := constant_world (ok_response (Some (lit "v2")) (lit "Hello")) (200 # 1) in
  let d := main first empty_disk in
  something_changed (after_loop again d) = false
  /\ (st_etag <$> (state (after_loop again d) !! lit "a")) = Some (Some (lit "v2"))
  /\ (st_etag <$> (load_json (STATE_FILE (main again d)) ∅ !! lit "a"))
     = Some (Some (lit "v1")).
Proof.
  intros first again d.
  assert (something_changed (after_loop again d) = false) as Hquiet by reflexivity.
  split; [exact Hquiet|]. split; [reflexivity|].
  destruct (X14_quiet_run_saves_nothing again d Hquiet) as (-> & _).
  reflexivity.
Defined.

Lemma X15_unchanged_pages_record_nothing_witness :
  let env := constant_world (ok_response None (lit "Hello")) (100 # 1) in
  let d := main env empty_disk in
  known_content env (load_json (STATE_FILE d) ∅) 0 watch_a
  /\ CHANGES_FILE (main env d) = CHANGES_FILE d.
Proof.
  intros env d.
  assert (known_content env (load_json (STATE_FILE d) ∅) 0 watch_a) as Hknown
    by (intros headers; by right).
  split; [exact Hknown|].
  apply (X15_unchanged_pages_record_nothing env d).
  intros [|j] entry Hentry; [|done].
  injection Hentry as <-. exact Hknown.
Defined.

Lemma X16_snapshot_pointers_stay_sound_witness :
  let env := constant_world (ok_response None (lit "Hello")) (100 # 1) in
  let later := constant_world (ok_response None (lit "Bye")) (200 # 1) in
  plain_id (e_id watch_a)
  /\ snapshots_consistent (load_json (STATE_FILE empty_disk) ∅)
       (SNAPSHOTS empty_disk)
  /\ snapshots_consistent
       (load_json (STATE_FILE (runs [env; later] empty_disk)) ∅)
       (SNAPSHOTS (runs [env; later] empty_disk)).
Proof.
  intros env later.
  assert (plain_id (e_id watch_a)) as Hplain.
  { repeat split; try done. by repeat constructor. }
  assert (snapshots_consistent (load_json (STATE_FILE empty_disk) ∅)
            (SNAPSHOTS empty_disk)) as Hstart by (by intros uid rec name).
  split; [exact Hplain|]. split; [exact Hstart|].
  apply (X16_snapshot_pointers_stay_sound [env; later] empty_disk);
    [|by intros uid [rec Hrec]|exact Hstart].
  intros entry Hin. apply list_elem_of_singleton in Hin. by subst.
Defined.

Lemma X17_first_run_records_every_target_witness :
  let env := constant_world (ok_response None (lit "Hello")) (100 # 1) in
  always_succeeds env
  /\ exists new,
       changes (after_loop env empty_disk) = new
       /\ map c_id new = [lit "a"].
Proof.
  intros env.
  assert (always_succeeds env) as Hok by (intros i url headers; cbn; lia).
  split; [exact Hok|].
  destruct (X17_first_run_records_every_target env empty_disk Hok)
    as (new & Hlog & Hids & _).
  - cbn. apply NoDup_singleton.
  - by intros entry _.
  - exists new. by split.
Defined.

Lemma X18_feed_depends_on_log_and_build_time_witness :
  let env := constant_world (ok_response None []) (300 # 1) in
  let c := {| c_id := lit "a"; c_url := []; c_title := []; c_timestamp := 100 # 1;
              c_hash := []; c_summary := None |} in
  Forall (fun c => ~ (c_timestamp c == 0)%Q) [c]
  /\ FEED_FILE (generate_feed env 0 [c] empty_disk)
     = Some (feed_document (lit "300") [item_xml (lit "100") c]).
Proof.
  intros env c.
  assert (Forall (fun c => ~ (c_timestamp c == 0)%Q) [c]) as Hdated
    by (by repeat constructor).
  split; [exact Hdated|].
  destruct (X18_feed_depends_on_log_and_build_time env 0 [c] empty_disk)
    as (_ & Hfeed & _).
  rewrite (Hfeed Hdated). vm_compute. reflexivity.
Defined.
Lemma X19_newest_change_comes_first_witness :
  let older := {| c_id := lit "a"; c_url := []; c_title := []; c_timestamp := 100 # 1;
                  c_hash := []; c_summary := None |} in
  let newer := {| c_id := lit "b"; c_url := []; c_title := []; c_timestamp := 200 # 1;
                  c_hash := []; c_summary := None |} in
  Forall (fun x => (c_timestamp x < c_timestamp newer)%Q) [older]
  /\ feed_records ([older] ++ [newer]) = [newer; older].
Proof.
  intros older newer.
  assert (Forall (fun x => (c_timestamp x < c_timestamp newer)%Q) [older]) as Hnewer
    by (by repeat constructor).
  split; [exact Hnewer|].
  by destruct (X19_newest_change_comes_first newer [older] Hnewer) as [_ ->].
Defined.

Lemma X21_second_run_records_nothing_witness :
  let before := constant_world (ok_response None (lit "Hello")) (100 # 1) in
  let again := constant_world (ok_response None (lit "Hello")) (200 # 1) in
  same_pages before again [watch_a]
  /\ CHANGES_FILE (main again (main before empty_disk))
     = CHANGES_FILE (main before empty_disk).
Proof.
  intros before again.
  assert (same_pages before again [watch_a]) as Hsame.
  { intros j entry headers headers' _. right. split; [cbn; lia|reflexivity]. }
  split; [exact Hsame|].
  apply (X21_second_run_records_nothing before again empty_disk); [|exact Hsame].
  cbn. apply NoDup_singleton.
Defined.
End ConcreteFurther.
